(** * Particle text and hand gestures: a shallow embedding

    The development follows the JavaScript sources
    - [src/src/config.js]: [CONFIG] and [createThemes];
    - [src/src/core/HandTracker.js], first document: class [HandTracker]
      with the average fingertip-to-wrist distance (variant A below);
    - [src/unnamed/part_002]: class [HandTracker] with curl analysis
      (variant B);
    - [src/unnamed/part_003]: class [HandTracker] with thumb test, modes
      1 to 5 and pointing gestures (variant C);
    - [src/src/core/HandTracker.js], third document: class [ParticleSystem]
      ([createGeometry], [generateTextParticles], [update]);
    - [src/unnamed/part_000]: class [App] ([onHandTrackingUpdate],
      [animate]).

    Numbers.  A JavaScript number is modelled as a real number: [+], [-],
    [*], [/], [Math.sqrt], [Math.sin], [Math.cos] are the operations of [R],
    comparisons are decided by [Rlt_dec].  Rounding, infinities and NaN are
    outside this model, and so is the narrowing to 32 bits done by a
    [Float32Array] store.

    Randomness.  [Math.random()] is a global generator.  A call sequence is
    modelled by a function [nat -> R] giving the k-th draw, together with the
    explicit index of the next draw.

    Failure.  Reading a field of [undefined] raises a TypeError; a function
    that can do so returns an [option], and [None] is the exception. *)

From Stdlib Require Import Reals Lra Lia ZArith QArith String List Permutation.
From stdpp Require Import base option list.

Set Warnings "-abstract-large-number".

Local Open Scope string_scope.
Local Open Scope R_scope.

(** ** Numbers and comparisons *)

Definition Rltb (a b : R) : bool := if Rlt_dec a b then true else false.
Definition Rgtb (a b : R) : bool := Rltb b a.
Definition Rneqb (a b : R) : bool := if Req_dec_T a b then false else true.

Arguments Rltb : simpl never.
Arguments Rgtb : simpl never.
Arguments Rneqb : simpl never.

(** ** Vectors, colours, configuration *)

(** [THREE.Vector3]; a MediaPipe landmark is an object with the same three
    fields. *)
Record Vector3 : Type := mkVector3 { x : R; y : R; z : R }.

Abbreviation Landmark := Vector3 (only parsing).

(** [THREE.Color]: three unclamped channels. *)
Record Color : Type := mkColor { r : R; g : R; b : R }.

Record TextCanvas : Type := mkTextCanvas {
  width : nat;
  height : nat;
  samplingStep : nat
}.

Record Interaction : Type := mkInteraction {
  handInfluenceRadius : R;
  physicsInfluenceRadius : R;
  forceMultiplier : R;
  fistThreshold : R;
  openThreshold : R
}.

Record Config : Type := mkConfig {
  particleCount : nat;
  returnSpeed : R;
  friction : R;
  textCanvas : TextCanvas;
  interaction : Interaction
}.

(** The values of [src/config.js]. *)
Definition CONFIG : Config := {|
  particleCount := 8000;
  returnSpeed := 0.12;
  friction := 0.92;
  textCanvas := {| width := 1000; height := 400; samplingStep := 4 |};
  interaction := {|
    handInfluenceRadius := 250;
    physicsInfluenceRadius := 50000;
    forceMultiplier := 15000;
    fistThreshold := 0.15;
    openThreshold := 0.28 |}
|}.

Record Theme : Type := mkTheme { color1 : Color; color2 : Color; text : string }.

(** ** Interaction state *)

Record InteractionState : Type := mkInteractionState {
  mode : Z;
  rightHandPos : Vector3;
  rightHandAction : string
}.

(** The "absent hand" position written by [rightHandPos.set(9999, 9999, 0)]. *)
Definition sentinel : Vector3 := mkVector3 9999 9999 0.

(** The state built by the [HandTracker] constructor. *)
Definition initialInteractionState : InteractionState :=
  {| mode := 1; rightHandPos := sentinel; rightHandAction := "neutral" |}.

(** ** Detector results *)

Record Handedness : Type := mkHandedness { label : string }.

(** [results.multiHandLandmarks] and [results.multiHandedness] may be
    missing (undefined), which is [None] here. *)
Record Results : Type := mkResults {
  multiHandLandmarks : option (list (list Landmark));
  multiHandedness : option (list Handedness)
}.

(** [window.innerWidth], [window.innerHeight]. *)
Record Window : Type := mkWindow { innerWidth : R; innerHeight : R }.

(** Planar distance [Math.sqrt(Math.pow(a.x - b.x, 2) + Math.pow(a.y - b.y, 2))],
    written out at each use in the source. *)
Definition dist2d (a b : Landmark) : R :=
  sqrt ((x a - x b) ^ 2 + (y a - y b) ^ 2).

(** ** HandTracker.processResults *)

(** [processResults] is the same in every variant of the tracker; the two
    per-hand procedures are the variant.  A result of [None] stands for the
    TypeError raised by reading a field of [undefined] (a landmark array that
    is too short, a handedness entry that is missing). *)
Section ProcessResults.

Variable processLeftHand : list Landmark -> InteractionState -> option InteractionState.
Variable processRightHand : list Landmark -> InteractionState -> option InteractionState.

(** The body of [for (let index = 0; index < multiHandLandmarks.length; index++)],
    entered at [index] with the landmark arrays still to visit. *)
Fixpoint processHands (hds : list Handedness) (index : nat)
    (lms : list (list Landmark)) (st : InteractionState) : option InteractionState :=
  match lms with
  | [] => Some st
  | landmarks :: rest =>
      classification ← hds !! index;
      let isRightHand := String.eqb (label classification) "Right" in
      st' ← (if negb isRightHand
             then processLeftHand landmarks st
             else processRightHand landmarks st);
      processHands hds (S index) rest st'
  end.

Definition resetState (st : InteractionState) : InteractionState :=
  {| mode := mode st; rightHandPos := sentinel; rightHandAction := "neutral" |}.

Definition processResults (results : Results) (st : InteractionState)
    : option InteractionState :=
  let st := resetState st in
  match multiHandLandmarks results, multiHandedness results with
  | Some lms, Some hds => processHands hds 0 lms st
  | _, _ => Some st
  end.

End ProcessResults.

(** Finger tests shared by the variants. *)

(** [landmarks[tip].y < landmarks[pip].y] *)
Definition tipAbove (landmarks : list Landmark) (tip pip : nat) : option bool :=
  t ← landmarks !! tip; p ← landmarks !! pip; Some (Rltb (y t) (y p)).

Definition incrIf (c : bool) (n : Z) : Z := if c then (n + 1)%Z else n.

(** Commit of a finger count, [lo <= fingers <= hi && mode !== fingers]. *)
Definition commitMode (lo hi fingers : Z) (st : InteractionState) : InteractionState :=
  if ((lo <=? fingers)%Z && (fingers <=? hi)%Z && negb (mode st =? fingers)%Z)%bool
  then {| mode := fingers; rightHandPos := rightHandPos st;
          rightHandAction := rightHandAction st |}
  else st.

(** [rightHandPos.set(x, y, 0)] with landmark 9 mapped to screen space. *)
Definition handPosition (win : Window) (lm9 : Landmark) : Vector3 :=
  let width := innerWidth win in
  let height := innerHeight win in
  mkVector3 ((1 - x lm9) * width - width / 2)
            (- (y lm9 * height - height / 2))
            0.

Definition setRightHand (pos : Vector3) (action : string) (st : InteractionState)
    : InteractionState :=
  {| mode := mode st; rightHandPos := pos; rightHandAction := action |}.

(** ** Variant A: [src/src/core/HandTracker.js] (average fingertip-to-wrist distance) *)

Module HandTrackerAvg.

Definition fingerCount (landmarks : list Landmark) : option Z :=
  let fingers := 0%Z in
  c ← tipAbove landmarks 8 6;   let fingers := incrIf c fingers in
  c ← tipAbove landmarks 12 10; let fingers := incrIf c fingers in
  c ← tipAbove landmarks 16 14; let fingers := incrIf c fingers in
  c ← tipAbove landmarks 20 18; let fingers := incrIf c fingers in
  Some fingers.

Definition processLeftHand (landmarks : list Landmark) (st : InteractionState)
    : option InteractionState :=
  fingers ← fingerCount landmarks;
  Some (commitMode 1 3 fingers st).

Definition avgDist (landmarks : list Landmark) : option R :=
  tip8 ← landmarks !! 8%nat;
  tip12 ← landmarks !! 12%nat;
  tip16 ← landmarks !! 16%nat;
  tip20 ← landmarks !! 20%nat;
  wrist ← landmarks !! 0%nat;
  let dist8 := dist2d tip8 wrist in
  let dist12 := dist2d tip12 wrist in
  let dist16 := dist2d tip16 wrist in
  let dist20 := dist2d tip20 wrist in
  Some ((dist8 + dist12 + dist16 + dist20) / 4).

Definition processRightHand (cfg : Config) (win : Window)
    (landmarks : list Landmark) (st : InteractionState) : option InteractionState :=
  lm9 ← landmarks !! 9%nat;
  let pos := handPosition win lm9 in
  avgDist ← avgDist landmarks;
  let action :=
    if Rltb avgDist (fistThreshold (interaction cfg)) then "fist"
    else if Rgtb avgDist (openThreshold (interaction cfg)) then "open"
    else "neutral" in
  Some (setRightHand pos action st).

Definition processResults (cfg : Config) (win : Window) :=
  processResults processLeftHand (processRightHand cfg win).

End HandTrackerAvg.

(** Curl analysis of the dominant hand, shared by the two richer variants. *)

(** [landmarks[tip].y > landmarks[pip].y] *)
Definition tipBelow (landmarks : list Landmark) (tip pip : nat) : option bool :=
  t ← landmarks !! tip; p ← landmarks !! pip; Some (Rgtb (y t) (y p)).

Definition curledFingers (landmarks : list Landmark) : option Z :=
  let curledFingers := 0%Z in
  c ← tipBelow landmarks 8 6;   let curledFingers := incrIf c curledFingers in
  c ← tipBelow landmarks 12 10; let curledFingers := incrIf c curledFingers in
  c ← tipBelow landmarks 16 14; let curledFingers := incrIf c curledFingers in
  c ← tipBelow landmarks 20 18; let curledFingers := incrIf c curledFingers in
  Some curledFingers.

Definition avgTipToPipDist (landmarks : list Landmark) : option R :=
  tip8 ← landmarks !! 8%nat;
  tip12 ← landmarks !! 12%nat;
  tip16 ← landmarks !! 16%nat;
  tip20 ← landmarks !! 20%nat;
  pip6 ← landmarks !! 6%nat;
  pip10 ← landmarks !! 10%nat;
  pip14 ← landmarks !! 14%nat;
  pip18 ← landmarks !! 18%nat;
  let distTipToPip8 := dist2d tip8 pip6 in
  let distTipToPip12 := dist2d tip12 pip10 in
  let distTipToPip16 := dist2d tip16 pip14 in
  let distTipToPip20 := dist2d tip20 pip18 in
  Some ((distTipToPip8 + distTipToPip12 + distTipToPip16 + distTipToPip20) / 4).

(** [(curledFingers >= 3 && avgTipToPipDist < 0.08) || avgDist < fistThreshold] *)
Definition isFist (cfg : Config) (curled : Z) (avgTipToPip avgDist : R) : bool :=
  ((3 <=? curled)%Z && Rltb avgTipToPip 0.08)
  || Rltb avgDist (fistThreshold (interaction cfg)).

(** ** Variant B: [src/unnamed/part_002] (curl analysis, fist / open / neutral) *)

Module HandTrackerCurl.

Definition processLeftHand := HandTrackerAvg.processLeftHand.

Definition processRightHand (cfg : Config) (win : Window)
    (landmarks : list Landmark) (st : InteractionState) : option InteractionState :=
  lm9 ← landmarks !! 9%nat;
  let pos := handPosition win lm9 in
  curled ← curledFingers landmarks;
  avgDist ← HandTrackerAvg.avgDist landmarks;
  avgTipToPip ← avgTipToPipDist landmarks;
  let isFist := isFist cfg curled avgTipToPip avgDist in
  let isOpen := (curled <=? 1)%Z && Rgtb avgDist (openThreshold (interaction cfg)) in
  let action :=
    if isFist then "fist"
    else if isOpen then "open"
    else "neutral" in
  Some (setRightHand pos action st).

Definition processResults (cfg : Config) (win : Window) :=
  processResults processLeftHand (processRightHand cfg win).

End HandTrackerCurl.

(** ** Variant C: [src/unnamed/part_003] (thumb test, modes 1..5, pointing gestures) *)

Module HandTrackerFingers.

Definition thumbExtended (landmarks : list Landmark) : option bool :=
  thumbTip ← landmarks !! 4%nat;
  thumbIP ← landmarks !! 3%nat;
  thumbMCP ← landmarks !! 2%nat;
  Some (Rgtb (x thumbTip) (x thumbIP)
        && Rgtb (dist2d thumbTip thumbMCP) (dist2d thumbIP thumbMCP)).

Definition fingerCount (landmarks : list Landmark) : option Z :=
  let fingers := 0%Z in
  c ← thumbExtended landmarks;  let fingers := incrIf c fingers in
  c ← tipAbove landmarks 8 6;   let fingers := incrIf c fingers in
  c ← tipAbove landmarks 12 10; let fingers := incrIf c fingers in
  c ← tipAbove landmarks 16 14; let fingers := incrIf c fingers in
  c ← tipAbove landmarks 20 18; let fingers := incrIf c fingers in
  Some fingers.

Definition processLeftHand (landmarks : list Landmark) (st : InteractionState)
    : option InteractionState :=
  fingers ← fingerCount landmarks;
  Some (commitMode 1 5 fingers st).

Definition processRightHand (cfg : Config) (win : Window)
    (landmarks : list Landmark) (st : InteractionState) : option InteractionState :=
  lm9 ← landmarks !! 9%nat;
  let pos := handPosition win lm9 in
  curled ← curledFingers landmarks;
  avgDist ← HandTrackerAvg.avgDist landmarks;
  avgTipToPip ← avgTipToPipDist landmarks;
  let extendedFingers := (4 - curled)%Z in
  up8 ← tipAbove landmarks 8 6;
  down12 ← tipBelow landmarks 12 10;
  down16 ← tipBelow landmarks 16 14;
  down20 ← tipBelow landmarks 20 18;
  let isOneFinger := (extendedFingers =? 1)%Z && up8 && down12 && down16 && down20 in
  let isTwoFingers :=
    (extendedFingers =? 2)%Z && Rgtb avgDist (openThreshold (interaction cfg)) in
  let isFist := isFist cfg curled avgTipToPip avgDist in
  let action :=
    if isFist then "fist"
    else if isTwoFingers then "twoFingers"
    else if isOneFinger then "oneFinger"
    else "neutral" in
  Some (setRightHand pos action st).

Definition processResults (cfg : Config) (win : Window) :=
  processResults processLeftHand (processRightHand cfg win).

End HandTrackerFingers.

(** ** ParticleSystem: state *)

(** The three parallel arrays of [THREE.Vector3] and the two flat typed
    arrays behind [geometry.attributes.position] and [.color]. *)
Record ParticleSystem : Type := mkParticleSystem {
  currentPositions : list Vector3;
  velocities : list Vector3;
  targetPositions : list Vector3;
  positions : list R;
  colors : list R
}.

(** [THREE.Color.lerp]: [this.r += (color.r - this.r) * alpha], per channel. *)
Definition lerp (c target : Color) (alpha : R) : Color :=
  mkColor (r c + (r target - r c) * alpha)
          (g c + (g target - g c) * alpha)
          (b c + (b target - b c) * alpha).

(** [new THREE.Color(0xffffff)] *)
Definition white : Color := mkColor 1 1 1.

(** [THREE.Vector3.distanceTo] *)
Definition distanceTo (p q : Vector3) : R :=
  let dx := x p - x q in
  let dy := y p - y q in
  let dz := z p - z q in
  sqrt (dx * dx + dy * dy + dz * dz).

(** [THREE.Vector3.add] *)
Definition add (p v : Vector3) : Vector3 :=
  mkVector3 (x p + x v) (y p + y v) (z p + z v).

(** ** ParticleSystem.update, one particle *)

(** "Color animation" and "Hand proximity color effect": the value of
    [tempColor] when the three channels are stored. *)
Definition tempColor (cfg : Config) (time : R) (theme : Theme)
    (rhPos : Vector3) (p : Vector3) : Color :=
  let mixRatio := (sin (time * 1.5 + x p * 0.0015) + 1) / 2 in
  let tempColor := lerp (color1 theme) (color2 theme) mixRatio in
  if Rneqb (x rhPos) 9999 then
    let distToHand := distanceTo p rhPos in
    if Rltb distToHand (handInfluenceRadius (interaction cfg)) then
      let influence := 1 - distToHand / handInfluenceRadius (interaction cfg) in
      let tempColor := lerp tempColor white (influence * 0.9) in
      mkColor (r tempColor * 1.2) (g tempColor * 1.2) (b tempColor * 1.2)
    else tempColor
  else tempColor.

(** The three values stored at [colors[i * 3 ..]]. *)
Definition storedColor (cfg : Config) (time : R) (theme : Theme)
    (rhPos : Vector3) (p : Vector3) : Color :=
  let tempColor := tempColor cfg time theme rhPos p in
  mkColor (Rmin 1.0 (r tempColor * 1.2))
          (Rmin 1.0 (g tempColor * 1.2))
          (Rmin 1.0 (b tempColor * 1.2)).

(** "Return force to target": [v] after the three [+=]. *)
Definition returnForce (cfg : Config) (p t v : Vector3) : Vector3 :=
  let forceX := (x t - x p) * returnSpeed cfg in
  let forceY := (y t - y p) * returnSpeed cfg in
  let forceZ := (z t - z p) * returnSpeed cfg in
  mkVector3 (x v + forceX) (y v + forceY) (z v + forceZ).

(** "Random noise": [u] holds the three draws of [Math.random()]. *)
Definition randomNoise (u : Vector3) (v : Vector3) : Vector3 :=
  mkVector3 (x v + (x u - 0.5) * 0.8)
            (y v + (y u - 0.5) * 0.8)
            (z v + (z u - 0.5) * 0.8).

(** "Hand interaction physics": [v] after the block. *)
Definition handInteraction (cfg : Config) (rhPos : Vector3) (rhAction : string)
    (p v : Vector3) : Vector3 :=
  if Rneqb (x rhPos) 9999 then
    let dx := x p - x rhPos in
    let dy := y p - y rhPos in
    let dz := z p - z rhPos in
    let distSq := dx * dx + dy * dy + dz * dz + 100 in
    if Rltb distSq (physicsInfluenceRadius (interaction cfg)) then
      let forceMagnitude := forceMultiplier (interaction cfg) / distSq in
      if String.eqb rhAction "fist" then
        let vx := x v - dx * forceMagnitude * 0.08 in
        let vy := y v - dy * forceMagnitude * 0.08 in
        let vz := z v - dz * forceMagnitude * 0.08 in
        let vx := vx + dy * 0.05 in
        let vy := vy - dx * 0.05 in
        mkVector3 vx vy vz
      else if String.eqb rhAction "open" then
        mkVector3 (x v + dx * forceMagnitude * 0.15)
                  (y v + dy * forceMagnitude * 0.15)
                  (z v + (dz * forceMagnitude * 0.15 + 2))
      else
        mkVector3 (x v + dx * forceMagnitude * 0.02)
                  (y v + dy * forceMagnitude * 0.02)
                  (z v + dz * forceMagnitude * 0.02)
    else v
  else v.

(** "Apply friction" *)
Definition applyFriction (cfg : Config) (v : Vector3) : Vector3 :=
  mkVector3 (x v * friction cfg) (y v * friction cfg) (z v * friction cfg).

(** The velocity of a particle at the end of its loop body. *)
Definition stepVelocity (cfg : Config) (ist : InteractionState) (u : Vector3)
    (p v t : Vector3) : Vector3 :=
  let v := returnForce cfg p t v in
  let v := randomNoise u v in
  let v := handInteraction cfg (rightHandPos ist) (rightHandAction ist) p v in
  applyFriction cfg v.

(** The three draws made in iteration [i] of the loop of [update]. *)
Definition noiseDraws (rnd : nat -> R) (i : nat) : Vector3 :=
  mkVector3 (rnd (3 * i)%nat) (rnd (3 * i + 1)%nat) (rnd (3 * i + 2)%nat).

(** Store of three consecutive values at [buf[i * 3 ..]]; a typed array
    ignores a store past its end. *)
Definition store3 (i : nat) (a0 a1 a2 : R) (buf : list R) : list R :=
  <[(i * 3 + 2)%nat := a2]> (<[(i * 3 + 1)%nat := a1]> (<[(i * 3)%nat := a0]> buf)).

(** One iteration of [for (let i = 0; i < CONFIG.particleCount; i++)];
    [None] is the TypeError of reading [.x] of a missing array entry. *)
Definition updateParticle (cfg : Config) (time : R) (theme : Theme)
    (ist : InteractionState) (rnd : nat -> R)
    (ps : ParticleSystem) (i : nat) : option ParticleSystem :=
  p ← currentPositions ps !! i;
  v ← velocities ps !! i;
  t ← targetPositions ps !! i;
  let c := storedColor cfg time theme (rightHandPos ist) p in
  let v := stepVelocity cfg ist (noiseDraws rnd i) p v t in
  let p := add p v in
  Some {| currentPositions := <[i := p]> (currentPositions ps);
          velocities := <[i := v]> (velocities ps);
          targetPositions := targetPositions ps;
          positions := store3 i (x p) (y p) (z p) (positions ps);
          colors := store3 i (r c) (g c) (b c) (colors ps) |}.

(** The loop, entered at index [i] with [n] iterations to go. *)
Fixpoint updateFrom (cfg : Config) (time : R) (theme : Theme)
    (ist : InteractionState) (rnd : nat -> R)
    (n i : nat) (ps : ParticleSystem) : option ParticleSystem :=
  match n with
  | O => Some ps
  | S n' =>
      ps' ← updateParticle cfg time theme ist rnd ps i;
      updateFrom cfg time theme ist rnd n' (S i) ps'
  end.

(** [ParticleSystem.update(time, theme, interactionState)] *)
Definition update (cfg : Config) (time : R) (theme : Theme)
    (ist : InteractionState) (rnd : nat -> R) (ps : ParticleSystem)
    : option ParticleSystem :=
  updateFrom cfg time theme ist rnd (particleCount cfg) 0 ps.

(** ** ParticleSystem.generateTextParticles *)

(** The object literal [{x: ..., y: ...}] pushed onto [validPoints]. *)
Record GlyphPoint : Type := mkGlyphPoint { gx : R; gy : R }.

(** The values taken by a loop [for (let a = 0; a < limit; a += step)],
    continued from [start].  [fuel] bounds the number of iterations; [limit]
    iterations are enough whenever [step] is positive (with [step = 0] the
    source loop does not end). *)
Fixpoint strideFrom (fuel start limit step : nat) : list nat :=
  match fuel with
  | O => []
  | S fuel' =>
      if (start <? limit)%nat
      then start :: strideFrom fuel' (start + step) limit step
      else []
  end.

Definition stride (limit step : nat) : list nat := strideFrom limit 0 limit step.

(** [data[(y * W + x) * 4] > 128]; a read past the end gives [undefined],
    and the comparison is then false. *)
Definition foreground (tc : TextCanvas) (data : list Z) (xpix ypix : nat) : bool :=
  match data !! ((ypix * width tc + xpix) * 4)%nat with
  | Some d => (128 <? d)%Z
  | None => false
  end.

Definition glyphPoint (tc : TextCanvas) (xpix ypix : nat) : GlyphPoint :=
  {| gx := (INR xpix - INR (width tc) / 2) * 2.2;
     gy := - (INR ypix - INR (height tc) / 2) * 2.2 |}.

(** The two nested sampling loops: rows outermost. *)
Definition samplePoints (tc : TextCanvas) (data : list Z) : list GlyphPoint :=
  flat_map
    (fun ypix =>
       flat_map
         (fun xpix => if foreground tc data xpix ypix then [glyphPoint tc xpix ypix] else [])
         (stride (width tc) (samplingStep tc)))
    (stride (height tc) (samplingStep tc)).

(** [validPoints.sort(() => Math.random() - 0.5)].

    The sorting procedure belongs to the JavaScript engine.  Whatever it is,
    it learns about the array only through the numbers returned by the
    comparison function, and here those do not depend on the elements
    compared.  Its run on an array of a given length is therefore a tree:
    a leaf gives the final arrangement ([order[k]] is the input index of the
    element placed at position [k]), an inner node is one call of the
    comparison function, continued according to the sign of its result. *)
Inductive SortTree : Type :=
  | Result (order : list nat)
  | Compare (negative zero positive : SortTree).

(** The run of a sort on the draws of [rnd] from index [k] on: the final
    arrangement and the index of the next unused draw. *)
Fixpoint runSort (t : SortTree) (rnd : nat -> R) (k : nat) : list nat * nat :=
  match t with
  | Result order => (order, k)
  | Compare negative zero positive =>
      let c := rnd k - 0.5 in
      if Rltb c 0 then runSort negative rnd (S k)
      else if Rgtb c 0 then runSort positive rnd (S k)
      else runSort zero rnd (S k)
  end.

Definition applyOrder {A : Type} (order : list nat) (l : list A) : list A :=
  omap (fun i => l !! i) order.

(** A sort of arrays of length [n] rearranges: every leaf is a permutation
    of the indices. *)
Fixpoint sortsLength (n : nat) (t : SortTree) : Prop :=
  match t with
  | Result order => Permutation order (seq 0 n)
  | Compare negative zero positive =>
      sortsLength n negative /\ sortsLength n zero /\ sortsLength n positive
  end.

(** Probability of a final arrangement when every call of the comparison
    function draws from a uniform source on [0, 1): the result is negative
    with probability 1/2, positive with probability 1/2, and zero with
    probability 0. *)
Fixpoint prob (t : SortTree) (order : list nat) : Q :=
  match t with
  | Result o => if decide (o = order) then 1%Q else 0%Q
  | Compare negative zero positive =>
      ((prob negative order + prob positive order) / 2)%Q
  end.

(** Number of calls of the comparison function on the longest run. *)
Fixpoint depth (t : SortTree) : nat :=
  match t with
  | Result _ => 0%nat
  | Compare negative zero positive =>
      S (Nat.max (depth negative) (Nat.max (depth zero) (depth positive)))
  end.

(** The run of a sort on a given sequence of signs, [true] for a negative
    and [false] for a positive result of the comparison function; [None]
    when the signs run out before the sort has finished. *)
Fixpoint runSigns (t : SortTree) (signs : list bool) : option (list nat) :=
  match t with
  | Result order => Some order
  | Compare negative _ positive =>
      match signs with
      | [] => None
      | s :: rest => if s then runSigns negative rest else runSigns positive rest
      end
  end.




(** The signs of the [d] results of the comparison function from draw [k] on. *)
Definition signsOf (rnd : nat -> R) (k d : nat) : list bool :=
  map (fun j => Rltb (rnd j - 0.5) 0) (seq k d).

(** Every arrangement of [n] elements is equally likely. *)
Definition uniformShuffle (n : nat) (t : SortTree) : Prop :=
  forall order : list nat,
    Permutation order (seq 0 n) ->
    (prob t order == 1 / inject_Z (Z.of_nat (fact n)))%Q.

(** Ring fallback for particle [i], from the draws [k], [k+1], [k+2]. *)
Definition fallbackTarget (rnd : nat -> R) (k : nat) : Vector3 :=
  let angle := rnd k * PI * 2 in
  let r := 500 + rnd (k + 1)%nat * 500 in
  mkVector3 (cos angle * r) (sin angle * r) ((rnd (k + 2)%nat - 0.5) * 400).

(** The loop [for (let i = 0; i < CONFIG.particleCount; i++)] that fills the
    targets, entered at [i] with [n] iterations to go and [k] the next draw.
    [targetPositions[i].set(...)] on a missing entry is a TypeError. *)
Fixpoint fillTargets (validPoints : list GlyphPoint) (rnd : nat -> R)
    (n i k : nat) (targets : list Vector3) : option (list Vector3) :=
  match n with
  | O => Some targets
  | S n' =>
      _ ← targets !! i;
      match validPoints !! i with
      | Some pt =>
          fillTargets validPoints rnd n' (S i) k
            (<[i := mkVector3 (gx pt) (gy pt) 0]> targets)
      | None =>
          fillTargets validPoints rnd n' (S i) (k + 3)
            (<[i := fallbackTarget rnd k]> targets)
      end
  end.

(** The shuffled points and the index of the first draw after the sort. *)
Definition shuffledPoints (cfg : Config) (sorter : nat -> SortTree) (rnd : nat -> R)
    (data : list Z) : list GlyphPoint * nat :=
  let validPoints := samplePoints (textCanvas cfg) data in
  let '(order, k) := runSort (sorter (length validPoints)) rnd 0 in
  (applyOrder order validPoints, k).

(** [render text] is the red-green-blue-alpha content of the canvas after
    [fillText], as returned by [getImageData]; [sorter n] is the engine's
    sort on arrays of length [n]. *)
Definition generateTextParticles (cfg : Config) (render : string -> list Z)
    (sorter : nat -> SortTree) (rnd : nat -> R)
    (text : string) (ps : ParticleSystem) : option ParticleSystem :=
  let data := render text in
  let '(validPoints, k) := shuffledPoints cfg sorter rnd data in
  targets ← fillTargets validPoints rnd (particleCount cfg) 0 k (targetPositions ps);
  Some {| currentPositions := currentPositions ps;
          velocities := velocities ps;
          targetPositions := targets;
          positions := positions ps;
          colors := colors ps |}.

(** ** Themes and the application glue *)

(** [new THREE.Color(hex)]: one byte per channel, scaled to [0, 1] (the
    conversion between colour spaces of recent library versions is left
    out; it keeps channels in [0, 1]). *)
Definition hexColor (hex : Z) : Color :=
  mkColor (IZR (Z.land (Z.shiftr hex 16) 255) / 255)
          (IZR (Z.land (Z.shiftr hex 8) 255) / 255)
          (IZR (Z.land hex 255) / 255).

(** [createThemes()] *)
Definition THEMES (key : Z) : option Theme :=
  if (key =? 1)%Z then Some (mkTheme (hexColor 0x00ffff) (hexColor 0x8800ff) "Hello")
  else if (key =? 2)%Z then Some (mkTheme (hexColor 0xffdd00) (hexColor 0xff3300) "HaiDang")
  else if (key =? 3)%Z then Some (mkTheme (hexColor 0xff0055) (hexColor 0xffbbdd) "I Love You")
  else if (key =? 4)%Z then Some (mkTheme (hexColor 0xaa00ff) (hexColor 0xff00aa) "Awesome")
  else if (key =? 5)%Z then Some (mkTheme (hexColor 0x00ff88) (hexColor 0x88ff00) "Welcome")
  else None.

(** The part of [App] that owns the particles.  [currentTheme] holds the key
    of the theme object; the five theme objects are distinct, so comparing
    the objects with [!==] is comparing their keys. *)
Record App : Type := mkApp {
  currentTheme : Z;
  particleSystem : ParticleSystem
}.

(** [App.onHandTrackingUpdate(interactionState)] *)
Definition onHandTrackingUpdate (cfg : Config) (render : string -> list Z)
    (sorter : nat -> SortTree) (rnd : nat -> R)
    (ist : InteractionState) (app : App) : option App :=
  let mode := mode ist in
  if ((1 <=? mode)%Z && (mode <=? 3)%Z && negb (currentTheme app =? mode)%Z)%bool then
    theme ← THEMES mode;
    ps ← generateTextParticles cfg render sorter rnd (text theme) (particleSystem app);
    Some {| currentTheme := mode; particleSystem := ps |}
  else Some app.

(** The particle part of [App.animate()]. *)
Definition animate (cfg : Config) (time : R) (rnd : nat -> R)
    (ist : InteractionState) (app : App) : option App :=
  theme ← THEMES (currentTheme app);
  ps ← update cfg time theme ist rnd (particleSystem app);
  Some {| currentTheme := currentTheme app; particleSystem := ps |}.

(** ** ParticleSystem.createGeometry *)



(** The shape the constructor gives to the arrays. *)
Definition wellFormed (cfg : Config) (ps : ParticleSystem) : Prop :=
  length (currentPositions ps) = particleCount cfg /\
  length (velocities ps) = particleCount cfg /\
  length (targetPositions ps) = particleCount cfg /\
  length (positions ps) = (particleCount cfg * 3)%nat /\
  length (colors ps) = (particleCount cfg * 3)%nat.

(** Particle [j] of [ps'] is particle [j] of [ps] after one loop body of
    [update], and its slots of the two buffers hold what the body stores. *)
Definition stepped (cfg : Config) (time : R) (theme : Theme)
    (ist : InteractionState) (rnd : nat -> R)
    (ps ps' : ParticleSystem) (j : nat) : Prop :=
  exists p v t,
    currentPositions ps !! j = Some p /\
    velocities ps !! j = Some v /\
    targetPositions ps !! j = Some t /\
    let v' := stepVelocity cfg ist (noiseDraws rnd j) p v t in
    let p' := add p v' in
    let c := storedColor cfg time theme (rightHandPos ist) p in
    velocities ps' !! j = Some v' /\
    currentPositions ps' !! j = Some p' /\
    ((j * 3 + 2 < length (positions ps))%nat ->
       positions ps' !! (j * 3)%nat = Some (x p') /\
       positions ps' !! (j * 3 + 1)%nat = Some (y p') /\
       positions ps' !! (j * 3 + 2)%nat = Some (z p')) /\
    ((j * 3 + 2 < length (colors ps))%nat ->
       colors ps' !! (j * 3)%nat = Some (r c) /\
       colors ps' !! (j * 3 + 1)%nat = Some (g c) /\
       colors ps' !! (j * 3 + 2)%nat = Some (b c)).

(** Outside the particles [i .. i+n-1] the two states agree. *)
Definition sameOutside (i n : nat) (ps ps' : ParticleSystem) : Prop :=
  (forall j, (j < i \/ i + n <= j)%nat ->
     currentPositions ps' !! j = currentPositions ps !! j /\
     velocities ps' !! j = velocities ps !! j) /\
  (forall m, (m < i * 3 \/ (i + n) * 3 <= m)%nat ->
     positions ps' !! m = positions ps !! m /\
     colors ps' !! m = colors ps !! m).

Definition sameShape (ps ps' : ParticleSystem) : Prop :=
  length (currentPositions ps') = length (currentPositions ps) /\
  length (velocities ps') = length (velocities ps) /\
  length (targetPositions ps') = length (targetPositions ps) /\
  length (positions ps') = length (positions ps) /\
  length (colors ps') = length (colors ps).

(** ** Terms in which the update rule is stated *)

Definition sub (p q : Vector3) : Vector3 :=
  mkVector3 (x p - x q) (y p - y q) (z p - z q).

Definition scale (k : R) (v : Vector3) : Vector3 :=
  mkVector3 (k * x v) (k * y v) (k * z v).

Definition dot (p q : Vector3) : R := x p * x q + y p * y q + z p * z q.

(** The spring term [(target - position) * returnSpeed]. *)
Definition springForce (cfg : Config) (p t : Vector3) : Vector3 :=
  scale (returnSpeed cfg) (sub t p).

(** The per-axis noise made from three draws. *)
Definition noiseTerm (u : Vector3) : Vector3 :=
  mkVector3 ((x u - 0.5) * 0.8) ((y u - 0.5) * 0.8) ((z u - 0.5) * 0.8).

(** The hand force on a particle at [p]: what the block "Hand interaction
    physics" adds to a velocity. *)
Definition handForce (cfg : Config) (rhPos : Vector3) (rhAction : string)
    (p : Vector3) : Vector3 :=
  handInteraction cfg rhPos rhAction p (mkVector3 0 0 0).

(** The guard of the force block: [dx*dx + dy*dy + dz*dz + 100] and its
    comparison with [physicsInfluenceRadius]. *)
Definition distSq (rhPos p : Vector3) : R :=
  dot (sub p rhPos) (sub p rhPos) + 100.

Definition inPhysicsRange (cfg : Config) (rhPos p : Vector3) : Prop :=
  distSq rhPos p < physicsInfluenceRadius (interaction cfg).

Definition forceMagnitude (cfg : Config) (rhPos p : Vector3) : R :=
  forceMultiplier (interaction cfg) / distSq rhPos p.

(** The rotation term of the fist branch. *)
Definition swirl (rhPos p : Vector3) : Vector3 :=
  mkVector3 ((y p - y rhPos) * 0.05) (- ((x p - x rhPos) * 0.05)) 0.

(** A force on a particle at [p] has a component toward the hand. *)
Definition towardHand (rhPos p force : Vector3) : Prop :=
  0 < dot force (sub rhPos p).

(** The colour of a particle before the hand effect. *)
Definition baseColor (time : R) (theme : Theme) (p : Vector3) : Color :=
  lerp (color1 theme) (color2 theme) ((sin (time * 1.5 + x p * 0.0015) + 1) / 2).

Definition unitColor (c : Color) : Prop :=
  0 <= r c <= 1 /\ 0 <= g c <= 1 /\ 0 <= b c <= 1.

(** ** Small instances on which the statements are exercised *)

(** [CONFIG] with two particles and a canvas of two by one pixels. *)
Definition smallConfig : Config := {|
  particleCount := 2;
  returnSpeed := returnSpeed CONFIG;
  friction := friction CONFIG;
  textCanvas := {| width := 2; height := 1; samplingStep := 1 |};
  interaction := interaction CONFIG
|}.

Definition twoParticles : ParticleSystem := {|
  currentPositions := [mkVector3 10 0 0; mkVector3 300 0 0];
  velocities := [mkVector3 0 0 0; mkVector3 1 0 0];
  targetPositions := [mkVector3 0 0 0; mkVector3 0 0 0];
  positions := [10; 0; 0; 300; 0; 0];
  colors := [1; 1; 1; 1; 1; 1]
|}.

Definition cyanTheme : Theme :=
  mkTheme (mkColor 0 1 1) (mkColor 0.5 0 1) "Hello".

(** A dominant hand at the origin. *)
Definition handAtOrigin (action : string) : InteractionState :=
  {| mode := 1; rightHandPos := mkVector3 0 0 0; rightHandAction := action |}.

(** A generator that always returns one half. *)
Definition halves : nat -> R := fun _ => 0.5.

(** Number of hands in a detector result. *)
Definition handCount (results : Results) : nat :=
  match multiHandLandmarks results with
  | Some lms => length lms
  | None => 0
  end.

(** ** Sequences of frames *)

(** Successive calls of a classifier, one per detector result. *)
Fixpoint processFrames (classify : Results -> InteractionState -> option InteractionState)
    (frames : list Results) (st : InteractionState) : option InteractionState :=
  match frames with
  | [] => Some st
  | results :: rest => st' ← classify results st; processFrames classify rest st'
  end.



(** A hand whose four fingertips are at [tip], whose four mid joints are at
    [pip], whose wrist is at [wrist]; the other landmarks are at the origin. *)
Definition handWith (wrist pip tip : Landmark) : list Landmark :=
  let o := mkVector3 0 0 0 in
  [ wrist; o; o; o; o; o; pip; o; tip; o; pip; o; tip; o; pip; o; tip; o; pip; o; tip ].

(** Fingertips 0.15 from the wrist, each just below its mid joint. *)
Definition fistAtThreshold : list Landmark :=
  handWith (mkVector3 0 0 0) (mkVector3 0 0.14 0) (mkVector3 0 0.15 0).

(** Fingertips 0.03 below their mid joints and far from the wrist. *)
Definition curledFarFromWrist : list Landmark :=
  handWith (mkVector3 0 0 0) (mkVector3 0 0.5 0) (mkVector3 0 0.53 0).

(** Four fingertips above their mid joints, thumb folded. *)
Definition fourFingersUp : list Landmark :=
  handWith (mkVector3 0.5 0.9 0) (mkVector3 0.5 0.4 0) (mkVector3 0.5 0.2 0).

Definition screen : Window := mkWindow 1280 720.

(** A sort that compares once on arrays of length two and leaves every other
    array as it is. *)
Definition coinSorter (n : nat) : SortTree :=
  match n with
  | 2%nat => Compare (Result [0; 1]%nat) (Result [0; 1]%nat) (Result [1; 0]%nat)
  | _ => Result (seq 0 n)
  end.

(** The target that the filling loop, entered at [i] with next draw [k],
    gives to particle [j]. *)
Definition targetFor (validPoints : list GlyphPoint) (rnd : nat -> R)
    (k i j : nat) : Vector3 :=
  match validPoints !! j with
  | Some pt => mkVector3 (gx pt) (gy pt) 0
  | None => fallbackTarget rnd (k + 3 * (j - Nat.max i (length validPoints)))
  end.

(** A canvas of two pixels whose first pixel is lit. *)
Definition onePixel : string -> list Z :=
  fun _ => [255; 255; 255; 255; 0; 0; 0; 255]%Z.

(** * Further code: the rest of the cited files *)

(** ** Variant D: [src/src/core/HandTracker.js], second document (index fingertip only) *)

Module HandTrackerTip.

Definition processLeftHand := HandTrackerAvg.processLeftHand.

Definition processRightHand (cfg : Config) (win : Window)
    (landmarks : list Landmark) (st : InteractionState) : option InteractionState :=
  lm9 ← landmarks !! 9%nat;
  let pos := handPosition win lm9 in
  tip8 ← landmarks !! 8%nat;
  wrist ← landmarks !! 0%nat;
  let dist := dist2d tip8 wrist in
  let action :=
    if Rltb dist (fistThreshold (interaction cfg)) then "fist"
    else if Rgtb dist (openThreshold (interaction cfg)) then "open"
    else "neutral" in
  Some (setRightHand pos action st).

Definition processResults (cfg : Config) (win : Window) :=
  processResults processLeftHand (processRightHand cfg win).

End HandTrackerTip.

(** The landmarks of the last hand labelled "Right" among the hands visited
    by [processHands] from [index] on. *)
Fixpoint lastRightHand (hds : list Handedness) (index : nat)
    (lms : list (list Landmark)) : option (list Landmark) :=
  match lms with
  | [] => None
  | landmarks :: rest =>
      match lastRightHand hds (S index) rest with
      | Some later => Some later
      | None =>
          match hds !! index with
          | Some h => if String.eqb (label h) "Right" then Some landmarks else None
          | None => None
          end
      end
  end.

Definition lastRightHandOf (results : Results) : option (list Landmark) :=
  match multiHandLandmarks results, multiHandedness results with
  | Some lms, Some hds => lastRightHand hds 0 lms
  | _, _ => None
  end.

(** ** Sequences of calls on a particle system *)

(** One call of a method of [ParticleSystem] with its arguments and the
    random draws, canvas and sort it meets. *)
Inductive Call : Type :=
  | CallUpdate (time : R) (theme : Theme) (ist : InteractionState) (rnd : nat -> R)
  | CallGenerate (render : string -> list Z) (sorter : nat -> SortTree)
      (rnd : nat -> R) (text : string).

Definition runCall (cfg : Config) (c : Call) (ps : ParticleSystem)
    : option ParticleSystem :=
  match c with
  | CallUpdate time theme ist rnd => update cfg time theme ist rnd ps
  | CallGenerate render sorter rnd text =>
      generateTextParticles cfg render sorter rnd text ps
  end.

Fixpoint runCalls (cfg : Config) (calls : list Call) (ps : ParticleSystem)
    : option ParticleSystem :=
  match calls with
  | [] => Some ps
  | c :: rest => ps' ← runCall cfg c ps; runCalls cfg rest ps'
  end.



(** A call of [update] with no dominant hand and with every draw equal to
    one half, so that the noise is zero. *)
Definition quiet (c : Call) : Prop :=
  match c with
  | CallUpdate _ _ ist rnd => x (rightHandPos ist) = 9999 /\ forall j, rnd j = 0.5
  | CallGenerate _ _ _ _ => False
  end.

(** A quadratic energy of the spring on one axis, [e] the offset from the
    target and [v] the velocity. *)
Definition axisEnergy (cfg : Config) (e v : R) : R :=
  friction cfg * returnSpeed cfg * (e * e)
  + (1 - friction cfg - friction cfg * returnSpeed cfg) * (e * v)
  + friction cfg * (v * v).

Definition energy (cfg : Config) (p v t : Vector3) : R :=
  axisEnergy cfg (x p - x t) (x v)
  + axisEnergy cfg (y p - y t) (y v)
  + axisEnergy cfg (z p - z t) (z v).

Definition particleEnergy (cfg : Config) (ps : ParticleSystem) (i : nat) : option R :=
  p ← currentPositions ps !! i;
  v ← velocities ps !! i;
  t ← targetPositions ps !! i;
  Some (energy cfg p v t).

(** Squared distance of particle [i] to its target. *)
Definition offsetSq (ps : ParticleSystem) (i : nat) : option R :=
  p ← currentPositions ps !! i;
  t ← targetPositions ps !! i;
  Some (dot (sub p t) (sub p t)).

(** ** [src/src/utils/ErrorHandler.js], first document: class ErrorHandler *)

Module ErrorHandler.

(** What is passed to [log]: an [Error] object with its [message] and
    [stack], or a thrown string. *)
Inductive Thrown : Type :=
  | ErrorObject (message stack : string)
  | ErrorText (s : string).

(** [error.message || error]: the message when it is a non-empty string,
    the thrown value itself otherwise. *)
Inductive Message : Type :=
  | MessageText (s : string)
  | MessageValue (error : Thrown).

Definition messageOf (error : Thrown) : Message :=
  match error with
  | ErrorObject message _ =>
      if String.eqb message "" then MessageValue error else MessageText message
  | ErrorText _ => MessageValue error
  end.

(** [error.stack]; [None] is [undefined]. *)
Definition stackOf (error : Thrown) : option string :=
  match error with
  | ErrorObject _ stack => Some stack
  | ErrorText _ => None
  end.

Record ErrorInfo : Type := mkErrorInfo {
  message : Message;
  stack : option string;
  context : string;
  timestamp : string
}.

Record t : Type := mkErrorHandler {
  errors : list ErrorInfo;
  maxErrors : nat
}.

(** [constructor()] *)
Definition create : t := {| errors := []; maxErrors := 50 |}.

(** [log(error, context)]; [now] is [new Date().toISOString()].  The
    result is the returned [errorInfo] and the handler after the call. *)
Definition log (now : string) (error : Thrown) (context : string) (h : t)
    : ErrorInfo * t :=
  let errorInfo :=
    {| message := messageOf error; stack := stackOf error;
       context := context; timestamp := now |} in
  let errors := (errors h ++ [errorInfo])%list in
  let errors :=
    if (maxErrors h <? length errors)%nat then tail errors else errors in
  (errorInfo, {| errors := errors; maxErrors := maxErrors h |}).

(** [handleCameraError], [handleHandTrackingError], [handleWebGLError]: the
    call of [log]; the banner shown to the user is not part of the state. *)
Definition handleCameraError (now : string) (error : Thrown) (h : t) : t :=
  snd (log now error "Camera" h).

Definition handleHandTrackingError (now : string) (error : Thrown) (h : t) : t :=
  snd (log now error "HandTracking" h).

Definition handleWebGLError (now : string) (error : Thrown) (h : t) : t :=
  snd (log now error "WebGL" h).

Definition getErrors (h : t) : list ErrorInfo := errors h.

Definition clearErrors (h : t) : t := {| errors := []; maxErrors := maxErrors h |}.

(** A sequence of calls of [log]: time stamp, thrown value, context. *)
Definition Entry : Type := (string * Thrown * string)%type.

Definition infoOf (e : Entry) : ErrorInfo :=
  let '(now, error, context) := e in
  {| message := messageOf error; stack := stackOf error;
     context := context; timestamp := now |}.

Fixpoint logAll (entries : list Entry) (h : t) : t :=
  match entries with
  | [] => h
  | (now, error, context) :: rest => logAll rest (snd (log now error context h))
  end.

End ErrorHandler.

(** ** [src/src/utils/ErrorHandler.js], second document: class PerformanceMonitor *)

Module PerformanceMonitor.

Record t : Type := mkPerformanceMonitor {
  fps : R;
  frameCount : nat;
  lastTime : R;
  frameTimes : list R;
  maxFrameTimeHistory : nat
}.

(** [constructor()]; [now] is [performance.now()]. *)
Definition create (now : R) : t :=
  {| fps := 0; frameCount := 0; lastTime := now; frameTimes := [];
     maxFrameTimeHistory := 60 |}.

(** [frameTimes.reduce((a, b) => a + b, 0)] *)
Definition total (l : list R) : R := fold_left Rplus l 0.

(** [Math.round]: the nearest integer, a tie going up. *)
Definition round (a : R) : R := IZR (Int_part (a + 0.5)).

(** [update()]; [now] is [performance.now()]. *)
Definition update (now : R) (m : t) : t :=
  let delta := now - lastTime m in
  let frameTimes := (frameTimes m ++ [delta])%list in
  let frameTimes :=
    if (maxFrameTimeHistory m <? length frameTimes)%nat
    then tail frameTimes else frameTimes in
  let frameCount := S (frameCount m) in
  let fps :=
    if (frameCount mod 60 =? 0)%nat then
      let avgFrameTime := total frameTimes / INR (length frameTimes) in
      round (1000 / avgFrameTime)
    else fps m in
  {| fps := fps; frameCount := frameCount; lastTime := now;
     frameTimes := frameTimes; maxFrameTimeHistory := maxFrameTimeHistory m |}.





End PerformanceMonitor.

(** ** [src/unnamed/part_000]: the animation loop of [App] *)

Module AppLoop.

(** The fields of [App] that drive the loop, with the browser's list of
    requested animation frames.  [requestAnimationFrame] returns [nextId]
    and appends it to [pending]; identifiers start at 1.  [frames] counts
    the runs of the body of [animate] (update, monitor, render). *)
Record t : Type := mkLoop {
  isRunning : bool;
  animationFrameId : option nat;
  pending : list nat;
  nextId : nat;
  frames : nat
}.

(** The state after the constructor of [App]. *)
Definition create : t :=
  {| isRunning := false; animationFrameId := None; pending := [];
     nextId := 1; frames := 0 |}.

(** [animate()] *)
Definition animate (a : t) : t :=
  if negb (isRunning a) then a
  else
    {| isRunning := isRunning a;
       animationFrameId := Some (nextId a);
       pending := (pending a ++ [nextId a])%list;
       nextId := S (nextId a);
       frames := S (frames a) |}.

(** [start()] *)
Definition start (a : t) : t :=
  if isRunning a then a
  else
    animate {| isRunning := true; animationFrameId := animationFrameId a;
               pending := pending a; nextId := nextId a; frames := frames a |}.

(** [cancelAnimationFrame(id)] *)
Definition cancel (id : nat) (l : list nat) : list nat :=
  List.filter (fun j => negb (j =? id)%nat) l.

(** [stop()]: [if (this.animationFrameId)] holds for an identifier other
    than 0. *)
Definition stop (a : t) : t :=
  let pending :=
    match animationFrameId a with
    | Some id => if (id =? 0)%nat then pending a else cancel id (pending a)
    | None => pending a
    end in
  {| isRunning := false; animationFrameId := animationFrameId a;
     pending := pending; nextId := nextId a; frames := frames a |}.

(** The browser runs the requested frame [id], if it is still pending. *)
Definition fire (id : nat) (a : t) : t :=
  if existsb (Nat.eqb id) (pending a) then
    animate {| isRunning := isRunning a; animationFrameId := animationFrameId a;
               pending := cancel id (pending a); nextId := nextId a;
               frames := frames a |}
  else a.

Inductive Event : Type :=
  | Start
  | Stop
  | Fire (id : nat).

Definition step (a : t) (e : Event) : t :=
  match e with
  | Start => start a
  | Stop => stop a
  | Fire id => fire id a
  end.

Definition run (events : list Event) : t := fold_left step events create.

End AppLoop.

(** ** The trackers side by side *)

(** A tracker is its pair of per-hand procedures. *)
Definition Tracker : Type :=
  ((list Landmark -> InteractionState -> option InteractionState)
   * (list Landmark -> InteractionState -> option InteractionState))%type.

(** The three trackers with modes 1 to 3 and the actions fist, open,
    neutral (variants A, D, B). *)
Definition basicTrackers (cfg : Config) (win : Window) : list Tracker :=
  [ (HandTrackerAvg.processLeftHand, HandTrackerAvg.processRightHand cfg win);
    (HandTrackerTip.processLeftHand, HandTrackerTip.processRightHand cfg win);
    (HandTrackerCurl.processLeftHand, HandTrackerCurl.processRightHand cfg win) ].

(** The tracker with modes 1 to 5 and the pointing gestures (variant C). *)
Definition pointingTracker (cfg : Config) (win : Window) : Tracker :=
  (HandTrackerFingers.processLeftHand, HandTrackerFingers.processRightHand cfg win).

Definition trackers (cfg : Config) (win : Window) : list Tracker :=
  (basicTrackers cfg win ++ [pointingTracker cfg win])%list.

(** [processResults] of a tracker. *)
Definition classify (tr : Tracker) : Results -> InteractionState -> option InteractionState :=
  processResults (fst tr) (snd tr).

(** A dominant-hand procedure that, when it returns, has written the screen
    position of landmark 9 and an action of [alphabet], the same whatever
    the state it started from. *)
Definition rightShape (win : Window) (alphabet : list string)
    (pr : list Landmark -> InteractionState -> option InteractionState) : Prop :=
  forall lm st st', pr lm st = Some st' ->
    exists lm9 action,
      lm !! 9%nat = Some lm9 /\ In action alphabet /\
      forall st2, pr lm st2 = Some (setRightHand (handPosition win lm9) action st2).

(** A non-dominant-hand procedure that, when it returns, has committed a
    finger count against the range [1 .. hi]. *)
Definition leftShape (hi : Z)
    (pl : list Landmark -> InteractionState -> option InteractionState) : Prop :=
  forall lm st st', pl lm st = Some st' ->
    exists fingers, st' = commitMode 1 hi fingers st.

(** A frame with a dominant hand making a fist and a non-dominant hand
    showing four fingers. *)
Definition twoHandsFrame : Results :=
  mkResults (Some [fistAtThreshold; fourFingersUp])
            (Some [mkHandedness "Right"; mkHandedness "Left"]).


(** What holds of the loop at every moment: identifiers are positive and
    below the next one, a running loop has exactly its last request
    pending, a stopped loop has none. *)
Definition loopInvariant (a : AppLoop.t) : Prop :=
  (1 <= AppLoop.nextId a)%nat /\
  match AppLoop.isRunning a, AppLoop.animationFrameId a with
  | true, Some id => AppLoop.pending a = [id] /\ (1 <= id < AppLoop.nextId a)%nat
  | true, None => False
  | false, Some id => AppLoop.pending a = [] /\ (1 <= id < AppLoop.nextId a)%nat
  | false, None => AppLoop.pending a = []
  end.

(** * Properties *)

(** ** Comparisons *)

Lemma Rltb_true a b : Rltb a b = true <-> a < b.
Proof. unfold Rltb. destruct (Rlt_dec a b); split; intros; try easy. Qed.

Lemma Rltb_false a b : Rltb a b = false <-> b <= a.
Proof. unfold Rltb. destruct (Rlt_dec a b); split; intros; try easy; lra. Qed.

Lemma Rneqb_true a b : Rneqb a b = true <-> a <> b.
Proof. unfold Rneqb. destruct (Req_dec_T a b); split; intros; easy. Qed.

Lemma Rneqb_false a b : Rneqb a b = false <-> a = b.
Proof. unfold Rneqb. destruct (Req_dec_T a b); split; intros; easy. Qed.

(** ** Typed-array stores *)

Lemma store3_length i a0 a1 a2 (buf : list R) :
  length (store3 i a0 a1 a2 buf) = length buf.
Proof. unfold store3. now rewrite !length_insert. Qed.

Lemma store3_lookup_other i a0 a1 a2 (buf : list R) (m : nat) :
  (m < i * 3 \/ i * 3 + 3 <= m)%nat ->
  store3 i a0 a1 a2 buf !! m = buf !! m.
Proof.
  intros Hm. unfold store3.
  rewrite !list_lookup_insert_ne by lia. reflexivity.
Qed.

Lemma store3_lookup i a0 a1 a2 (buf : list R) :
  (i * 3 + 2 < length buf)%nat ->
  store3 i a0 a1 a2 buf !! (i * 3)%nat = Some a0 /\
  store3 i a0 a1 a2 buf !! (i * 3 + 1)%nat = Some a1 /\
  store3 i a0 a1 a2 buf !! (i * 3 + 2)%nat = Some a2.
Proof.
  intros Hlen. unfold store3. repeat split.
  - rewrite !list_lookup_insert_ne by lia.
    apply list_lookup_insert_eq. lia.
  - rewrite list_lookup_insert_ne by lia.
    apply list_lookup_insert_eq. rewrite length_insert. lia.
  - apply list_lookup_insert_eq. rewrite !length_insert. lia.
Qed.

(** ** The loop of [update] *)

Lemma updateParticle_total cfg time theme ist rnd ps i :
  (i < length (currentPositions ps))%nat ->
  (i < length (velocities ps))%nat ->
  (i < length (targetPositions ps))%nat ->
  exists ps',
    updateParticle cfg time theme ist rnd ps i = Some ps' /\
    targetPositions ps' = targetPositions ps /\
    sameShape ps ps' /\
    sameOutside i 1 ps ps' /\
    stepped cfg time theme ist rnd ps ps' i.
Proof.
  intros Hp Hv Ht.
  destruct (lookup_lt_is_Some_2 _ _ Hp) as [p Ep].
  destruct (lookup_lt_is_Some_2 _ _ Hv) as [v Ev].
  destruct (lookup_lt_is_Some_2 _ _ Ht) as [t Et].
  unfold updateParticle. rewrite Ep, Ev, Et. cbn.
  eexists. split; [reflexivity|]. cbn.
  split; [reflexivity|]. split; [|split].
  - unfold sameShape; cbn. rewrite !length_insert, !store3_length. tauto.
  - unfold sameOutside; cbn. split.
    + intros j Hj. rewrite !list_lookup_insert_ne by lia. tauto.
    + intros m Hm. rewrite !store3_lookup_other by lia. tauto.
  - exists p, v, t. cbn. repeat split; try assumption.
    + apply list_lookup_insert_eq; assumption.
    + apply list_lookup_insert_eq; assumption.
    + apply store3_lookup; assumption.
    + apply store3_lookup; assumption.
    + apply store3_lookup; assumption.
    + apply store3_lookup; assumption.
    + apply store3_lookup; assumption.
    + apply store3_lookup; assumption.
Qed.

Lemma updateFrom_total cfg time theme ist rnd n : forall i ps,
  (i + n <= length (currentPositions ps))%nat ->
  (i + n <= length (velocities ps))%nat ->
  (i + n <= length (targetPositions ps))%nat ->
  exists ps',
    updateFrom cfg time theme ist rnd n i ps = Some ps' /\
    targetPositions ps' = targetPositions ps /\
    sameShape ps ps' /\
    sameOutside i n ps ps' /\
    (forall j, (i <= j < i + n)%nat -> stepped cfg time theme ist rnd ps ps' j).
Proof.
  induction n as [|n IH]; intros i ps Hp Hv Ht.
  - exists ps. cbn. repeat split; intros; lia.
  - destruct (updateParticle_total cfg time theme ist rnd ps i)
      as (ps1 & E1 & T1 & S1 & O1 & P1); try lia.
    destruct S1 as (L1 & L2 & L3 & L4 & L5).
    destruct (IH (S i) ps1) as (ps' & E' & T' & S' & O' & P'); try lia.
    exists ps'. cbn. rewrite E1. cbn.
    split; [exact E'|]. split; [congruence|].
    destruct S' as (M1 & M2 & M3 & M4 & M5).
    destruct O1 as [O1a O1b], O' as [Oa Ob].
    split; [unfold sameShape; repeat split; congruence|].
    split.
    + split.
      * intros j Hj.
        destruct (Oa j) as [A B]; [lia|]. destruct (O1a j) as [C D]; [lia|].
        split; congruence.
      * intros m Hm.
        destruct (Ob m) as [A B]; [lia|]. destruct (O1b m) as [C D]; [lia|].
        split; congruence.
    + intros j Hj. destruct (Nat.eq_dec j i) as [->|Hne].
      * destruct P1 as (p & v & t & Ep & Ev & Et & Q1 & Q2 & Q3 & Q4).
        exists p, v, t. repeat split; try assumption.
        -- destruct (Oa i) as [_ B]; [lia|]. now rewrite B.
        -- destruct (Oa i) as [A _]; [lia|]. now rewrite A.
        -- destruct (Ob (i * 3)%nat) as [A _]; [lia|]. rewrite A. now apply Q3.
        -- destruct (Ob (i * 3 + 1)%nat) as [A _]; [lia|]. rewrite A. now apply Q3.
        -- destruct (Ob (i * 3 + 2)%nat) as [A _]; [lia|]. rewrite A. now apply Q3.
        -- destruct (Ob (i * 3)%nat) as [_ A]; [lia|]. rewrite A. now apply Q4.
        -- destruct (Ob (i * 3 + 1)%nat) as [_ A]; [lia|]. rewrite A. now apply Q4.
        -- destruct (Ob (i * 3 + 2)%nat) as [_ A]; [lia|]. rewrite A. now apply Q4.
      * destruct (P' j) as (p & v & t & Ep & Ev & Et & Q1 & Q2 & Q3 & Q4); [lia|].
        destruct (O1a j) as [A B]; [lia|].
        exists p, v, t. rewrite <- A, <- B, <- T1.
        repeat split; try assumption.
        -- apply Q3. lia.
        -- apply Q3. lia.
        -- apply Q3. lia.
        -- apply Q4. lia.
        -- apply Q4. lia.
        -- apply Q4. lia.
Qed.

(** On arrays shaped by the constructor [update] returns, keeps the shape,
    and has run the loop body once on every particle. *)
Lemma update_total cfg time theme ist rnd ps :
  wellFormed cfg ps ->
  exists ps',
    update cfg time theme ist rnd ps = Some ps' /\
    targetPositions ps' = targetPositions ps /\
    wellFormed cfg ps' /\
    (forall j, (j < particleCount cfg)%nat -> stepped cfg time theme ist rnd ps ps' j).
Proof.
  intros (W1 & W2 & W3 & W4 & W5).
  destruct (updateFrom_total cfg time theme ist rnd (particleCount cfg) 0 ps)
    as (ps' & E & T & (S1 & S2 & S3 & S4 & S5) & _ & P); cbn; try lia.
  exists ps'. split; [exact E|]. split; [exact T|]. split.
  - unfold wellFormed. repeat split; congruence.
  - intros j Hj. apply P. lia.
Qed.

(** ** The velocity rule *)

Lemma handInteraction_adds cfg rhPos rhAction p v :
  handInteraction cfg rhPos rhAction p v = add v (handForce cfg rhPos rhAction p).
Proof.
  unfold handForce, handInteraction, add.
  destruct (Rneqb _ _); [destruct (Rltb _ _); [destruct (String.eqb _ _);
    [|destruct (String.eqb _ _)]|]|];
    destruct v; cbn; f_equal; ring.
Qed.

Lemma stepVelocity_formula cfg ist u p v t :
  stepVelocity cfg ist u p v t =
  scale (friction cfg)
    (add (add (add v (springForce cfg p t)) (noiseTerm u))
         (handForce cfg (rightHandPos ist) (rightHandAction ist) p)).
Proof.
  unfold stepVelocity. rewrite handInteraction_adds.
  unfold applyFriction, randomNoise, returnForce, springForce, noiseTerm,
    scale, add, sub. cbn. f_equal; ring.
Qed.

(** C1. For every particle, one call of [update] sets the velocity to
    friction times the sum of the old velocity, the spring force
    [(target - position) * returnSpeed], the noise and the hand force, so
    that friction is applied once, after all forces; it then sets the
    position to the old position plus the new velocity and stores it in the
    three slots of the particle in the position buffer. *)
Theorem update_applies_forces_then_friction cfg time theme ist rnd ps i p v t :
  wellFormed cfg ps ->
  (i < particleCount cfg)%nat ->
  currentPositions ps !! i = Some p ->
  velocities ps !! i = Some v ->
  targetPositions ps !! i = Some t ->
  exists ps',
    update cfg time theme ist rnd ps = Some ps' /\
    let v' :=
      scale (friction cfg)
        (add (add (add v (springForce cfg p t)) (noiseTerm (noiseDraws rnd i)))
             (handForce cfg (rightHandPos ist) (rightHandAction ist) p)) in
    let p' := add p v' in
    velocities ps' !! i = Some v' /\
    currentPositions ps' !! i = Some p' /\
    positions ps' !! (i * 3)%nat = Some (x p') /\
    positions ps' !! (i * 3 + 1)%nat = Some (y p') /\
    positions ps' !! (i * 3 + 2)%nat = Some (z p').
Proof.
  intros W Hi Ep Ev Et.
  destruct (update_total cfg time theme ist rnd ps W) as (ps' & E & _ & _ & P).
  exists ps'. split; [exact E|].
  destruct (P i Hi) as (p0 & v0 & t0 & Ep0 & Ev0 & Et0 & Q1 & Q2 & Q3 & _).
  rewrite Ep in Ep0. rewrite Ev in Ev0. rewrite Et in Et0.
  injection Ep0 as <-. injection Ev0 as <-. injection Et0 as <-.
  rewrite stepVelocity_formula in Q1, Q2, Q3.
  destruct W as (_ & _ & _ & W4 & _).
  cbn zeta. split; [exact Q1|]. split; [exact Q2|].
  apply Q3. lia.
Qed.

Lemma update_applies_forces_then_friction_witness :
  exists ps',
    update smallConfig 0 cyanTheme (handAtOrigin "fist") halves twoParticles = Some ps' /\
    currentPositions ps' !! 0%nat =
      Some (add (mkVector3 10 0 0)
             (scale (friction smallConfig)
               (add (add (add (mkVector3 0 0 0)
                              (springForce smallConfig (mkVector3 10 0 0) (mkVector3 0 0 0)))
                         (noiseTerm (noiseDraws halves 0)))
                    (handForce smallConfig (mkVector3 0 0 0) "fist" (mkVector3 10 0 0))))).
Proof.
  destruct (update_applies_forces_then_friction smallConfig 0 cyanTheme
              (handAtOrigin "fist") halves twoParticles 0
              (mkVector3 10 0 0) (mkVector3 0 0 0) (mkVector3 0 0 0))
    as (ps' & E & _ & Hp & _).
  - unfold wellFormed. cbn. repeat split; reflexivity.
  - cbn. lia.
  - reflexivity.
  - reflexivity.
  - reflexivity.
  - exists ps'. split; [exact E | exact Hp].
Defined.

(** ** The hand force *)

Lemma dot_scale k u w : dot (scale k u) w = k * dot u w.
Proof. unfold dot, scale. cbn. ring. Qed.

Lemma dot_sub_opp p q : dot (sub p q) (sub q p) = - dot (sub p q) (sub p q).
Proof. unfold dot, sub. cbn. ring. Qed.

Lemma dot_self_nonneg u : 0 <= dot u u.
Proof. unfold dot. nra. Qed.

Lemma distSq_ge_100 rhPos p : 100 <= distSq rhPos p.
Proof. unfold distSq. pose proof (dot_self_nonneg (sub p rhPos)). lra. Qed.

Lemma handInteraction_in_range cfg rhPos rhAction p v :
  x rhPos <> 9999 ->
  inPhysicsRange cfg rhPos p ->
  handInteraction cfg rhPos rhAction p v =
    let dx := x p - x rhPos in
    let dy := y p - y rhPos in
    let dz := z p - z rhPos in
    let fm := forceMagnitude cfg rhPos p in
    if String.eqb rhAction "fist" then
      mkVector3 (x v - dx * fm * 0.08 + dy * 0.05)
                (y v - dy * fm * 0.08 - dx * 0.05)
                (z v - dz * fm * 0.08)
    else if String.eqb rhAction "open" then
      mkVector3 (x v + dx * fm * 0.15) (y v + dy * fm * 0.15)
                (z v + (dz * fm * 0.15 + 2))
    else
      mkVector3 (x v + dx * fm * 0.02) (y v + dy * fm * 0.02)
                (z v + dz * fm * 0.02).
Proof.
  intros Hx Hr. unfold handInteraction.
  apply Rneqb_true in Hx. rewrite Hx.
  unfold inPhysicsRange, distSq, dot, sub in Hr. cbn in Hr.
  apply Rltb_true in Hr. rewrite Hr.
  unfold forceMagnitude, distSq, dot, sub. cbn. reflexivity.
Qed.

(** C2, as the code has it.  With the dominant hand present and the particle
    inside the force range, the action alone selects one of three force
    terms: "fist" pulls toward the hand with coefficient 0.08 and adds a
    rotation term orthogonal to the offset; "open" pushes away with
    coefficient 0.15 and adds the constant 2 on the depth axis; every other
    action pushes away from the hand with coefficient 0.02, smaller than
    that of "fist", and never has a component toward the hand. *)
Theorem hand_force_selected_by_action cfg rhPos rhAction p :
  x rhPos <> 9999 ->
  inPhysicsRange cfg rhPos p ->
  0 < forceMultiplier (interaction cfg) ->
  let d := sub p rhPos in
  let fm := forceMagnitude cfg rhPos p in
  let force := handForce cfg rhPos rhAction p in
  0 < fm /\
  (rhAction = "fist" ->
     force = add (scale (- (fm * 0.08)) d) (swirl rhPos p) /\
     dot (swirl rhPos p) d = 0 /\
     (0 < dot d d -> towardHand rhPos p force)) /\
  (rhAction = "open" ->
     force = add (scale (fm * 0.15) d) (mkVector3 0 0 2)) /\
  (rhAction <> "fist" -> rhAction <> "open" ->
     force = scale (fm * 0.02) d /\
     fm * 0.02 < fm * 0.08 /\
     ~ towardHand rhPos p force).
Proof.
  intros Hx Hr Hm d fm force.
  assert (Hfm : 0 < fm).
  { unfold fm, forceMagnitude. pose proof (distSq_ge_100 rhPos p).
    apply Rdiv_lt_0_compat; lra. }
  split; [exact Hfm|].
  unfold force, handForce. rewrite (handInteraction_in_range _ _ _ _ _ Hx Hr).
  cbn zeta. fold fm. split; [|split].
  - intros ->. cbn [String.eqb Ascii.eqb Bool.eqb].
    assert (E : mkVector3 (x (mkVector3 0 0 0) - (x p - x rhPos) * fm * 0.08 + (y p - y rhPos) * 0.05)
                  (y (mkVector3 0 0 0) - (y p - y rhPos) * fm * 0.08 - (x p - x rhPos) * 0.05)
                  (z (mkVector3 0 0 0) - (z p - z rhPos) * fm * 0.08)
                = add (scale (- (fm * 0.08)) d) (swirl rhPos p)).
    { unfold add, scale, swirl, d, sub. cbn. f_equal; ring. }
    rewrite E. split; [reflexivity|]. split.
    + unfold dot, swirl, d, sub. cbn. ring.
    + intros Hd. unfold towardHand.
      replace (dot (add (scale (- (fm * 0.08)) d) (swirl rhPos p)) (sub rhPos p))
        with (fm * 0.08 * dot d d).
      * apply Rmult_lt_0_compat; lra.
      * unfold dot, add, scale, swirl, d, sub. cbn. ring.
  - intros ->. cbn [String.eqb Ascii.eqb Bool.eqb].
    unfold add, scale, d, sub. cbn. f_equal; ring.
  - intros Hf Ho.
    apply String.eqb_neq in Hf. apply String.eqb_neq in Ho. rewrite Hf, Ho.
    assert (E : mkVector3 (x (mkVector3 0 0 0) + (x p - x rhPos) * fm * 0.02)
                  (y (mkVector3 0 0 0) + (y p - y rhPos) * fm * 0.02)
                  (z (mkVector3 0 0 0) + (z p - z rhPos) * fm * 0.02)
                = scale (fm * 0.02) d).
    { unfold scale, d, sub. cbn. f_equal; ring. }
    rewrite E. split; [reflexivity|]. split; [lra|].
    unfold towardHand. rewrite dot_scale. unfold d. rewrite dot_sub_opp.
    pose proof (dot_self_nonneg (sub p rhPos)). nra.
Qed.

Lemma hand_force_selected_by_action_witness :
  0 < forceMagnitude CONFIG (mkVector3 0 0 0) (mkVector3 10 0 0) /\
  handForce CONFIG (mkVector3 0 0 0) "neutral" (mkVector3 10 0 0) =
    scale (forceMagnitude CONFIG (mkVector3 0 0 0) (mkVector3 10 0 0) * 0.02)
          (sub (mkVector3 10 0 0) (mkVector3 0 0 0)).
Proof.
  destruct (hand_force_selected_by_action CONFIG (mkVector3 0 0 0) "neutral"
              (mkVector3 10 0 0)) as (Hfm & _ & _ & Hother).
  - cbn. lra.
  - unfold inPhysicsRange, distSq, dot, sub. cbn. lra.
  - cbn. lra.
  - split; [exact Hfm|]. apply Hother; discriminate.
Defined.

(** C2 as stated fails in its last branch: with the hand at the origin, a
    particle at (10, 0, 0) inside the force range and the action "neutral",
    the force is (15, 0, 0), which points away from the hand. *)
Lemma other_action_is_not_attraction :
  let rhPos := mkVector3 0 0 0 in
  let p := mkVector3 10 0 0 in
  x rhPos <> 9999 /\
  inPhysicsRange CONFIG rhPos p /\
  handForce CONFIG rhPos "neutral" p = mkVector3 15 0 0 /\
  ~ towardHand rhPos p (handForce CONFIG rhPos "neutral" p).
Proof.
  cbn zeta.
  assert (Hx : x (mkVector3 0 0 0) <> 9999) by (cbn; lra).
  assert (Hr : inPhysicsRange CONFIG (mkVector3 0 0 0) (mkVector3 10 0 0)).
  { unfold inPhysicsRange, distSq, dot, sub. cbn. lra. }
  assert (E : handForce CONFIG (mkVector3 0 0 0) "neutral" (mkVector3 10 0 0)
              = mkVector3 15 0 0).
  { unfold handForce. rewrite (handInteraction_in_range _ _ _ _ _ Hx Hr).
    cbn [String.eqb Ascii.eqb Bool.eqb].
    unfold forceMagnitude, distSq, dot, sub. cbn. f_equal; lra. }
  repeat split; try assumption.
  rewrite E. unfold towardHand, dot, sub. cbn. lra.
Qed.

(** ** Colours *)

Lemma lerp_unit a c alpha :
  unitColor a -> unitColor c -> 0 <= alpha <= 1 -> unitColor (lerp a c alpha).
Proof.
  intros (A1 & A2 & A3) (C1 & C2 & C3) Ha.
  unfold unitColor, lerp. cbn. repeat split; nra.
Qed.

Lemma baseColor_unit time theme p :
  unitColor (color1 theme) -> unitColor (color2 theme) ->
  unitColor (baseColor time theme p).
Proof.
  intros H1 H2. apply lerp_unit; try assumption.
  pose proof (SIN_bound (time * 1.5 + x p * 0.0015)). lra.
Qed.

Lemma distanceTo_nonneg p q : 0 <= distanceTo p q.
Proof. unfold distanceTo. apply sqrt_pos. Qed.

Lemma influence_bounds d radius :
  0 <= d -> d < radius -> 0 <= (1 - d / radius) * 0.9 <= 1.
Proof.
  intros Hd Hr.
  assert (Hi : 0 < / radius) by (apply Rinv_0_lt_compat; lra).
  assert (Hone : radius * / radius = 1) by (apply Rinv_r; lra).
  unfold Rdiv. nra.
Qed.

Lemma tempColor_nonneg cfg time theme rhPos p :
  unitColor (color1 theme) -> unitColor (color2 theme) ->
  let c := tempColor cfg time theme rhPos p in
  0 <= r c /\ 0 <= g c /\ 0 <= b c.
Proof.
  intros H1 H2.
  pose proof (baseColor_unit time theme p H1 H2) as Hb.
  unfold tempColor. fold (baseColor time theme p). cbn zeta.
  destruct (Rneqb (x rhPos) 9999).
  - destruct (Rltb _ _) eqn:Hlt.
    + apply Rltb_true in Hlt.
      pose proof (influence_bounds _ _ (distanceTo_nonneg p rhPos) Hlt) as Hi.
      assert (Hw : unitColor white) by (unfold unitColor, white; cbn; lra).
      destruct (lerp_unit _ _ _ Hb Hw Hi) as (L1 & L2 & L3).
      cbn [r g b]. lra.
    + destruct Hb as (B1 & B2 & B3). lra.
  - destruct Hb as (B1 & B2 & B3). lra.
Qed.

Lemma Rmin_one_unit a : 0 <= a -> 0 <= Rmin 1.0 a <= 1.
Proof.
  intros Ha. split.
  - apply Rmin_glb; lra.
  - pose proof (Rmin_l 1.0 a). lra.
Qed.

Lemma storedColor_unit cfg time theme rhPos p :
  unitColor (color1 theme) -> unitColor (color2 theme) ->
  unitColor (storedColor cfg time theme rhPos p).
Proof.
  intros H1 H2.
  destruct (tempColor_nonneg cfg time theme rhPos p H1 H2) as (T1 & T2 & T3).
  unfold unitColor, storedColor. cbn.
  repeat split; apply Rmin_one_unit; lra.
Qed.

(** C9. After a call of [update] every value of the colour buffer lies in
    [0, 1], whatever the hand position, when the two theme colours have
    their channels in [0, 1]: the boost is cut at 1.0 by [Math.min] and no
    channel is negative. *)
Theorem update_colors_within_unit_range cfg time theme ist rnd ps :
  wellFormed cfg ps ->
  unitColor (color1 theme) ->
  unitColor (color2 theme) ->
  exists ps',
    update cfg time theme ist rnd ps = Some ps' /\
    (forall i p, (i < particleCount cfg)%nat -> currentPositions ps !! i = Some p ->
       let c := storedColor cfg time theme (rightHandPos ist) p in
       colors ps' !! (i * 3)%nat = Some (r c) /\
       colors ps' !! (i * 3 + 1)%nat = Some (g c) /\
       colors ps' !! (i * 3 + 2)%nat = Some (b c)) /\
    Forall (fun c => 0 <= c <= 1) (colors ps').
Proof.
  intros W H1 H2.
  destruct (update_total cfg time theme ist rnd ps W)
    as (ps' & E & _ & (_ & _ & _ & _ & W5') & P).
  destruct W as (_ & _ & _ & _ & W5).
  exists ps'. split; [exact E|]. split.
  - intros i p Hi Ep.
    destruct (P i Hi) as (p0 & v0 & t0 & Ep0 & _ & _ & _ & _ & _ & Q4).
    rewrite Ep in Ep0. injection Ep0 as <-.
    apply Q4. lia.
  - apply Forall_lookup. intros m c Hm.
    assert (Hlt : (m < particleCount cfg * 3)%nat).
    { rewrite <- W5'. eapply lookup_lt_Some; eassumption. }
    assert (Hj : (m / 3 < particleCount cfg)%nat)
      by (apply Nat.Div0.div_lt_upper_bound; lia).
    destruct (P (m / 3)%nat Hj) as (p0 & v0 & t0 & _ & _ & _ & _ & _ & _ & Q4).
    destruct Q4 as (Q0 & Q1 & Q2).
    { pose proof (Nat.div_mod_eq m 3). pose proof (Nat.mod_upper_bound m 3). lia. }
    destruct (storedColor_unit cfg time theme (rightHandPos ist) p0 H1 H2)
      as (U1 & U2 & U3).
    pose proof (Nat.div_mod_eq m 3) as Hdm.
    pose proof (Nat.mod_upper_bound m 3) as Hmod.
    assert (Hcase : (m = m / 3 * 3 \/ m = m / 3 * 3 + 1 \/ m = m / 3 * 3 + 2)%nat) by lia.
    destruct Hcase as [Hc|[Hc|Hc]]; rewrite Hc in Hm.
    + rewrite Q0 in Hm. injection Hm as <-. exact U1.
    + rewrite Q1 in Hm. injection Hm as <-. exact U2.
    + rewrite Q2 in Hm. injection Hm as <-. exact U3.
Qed.

Lemma update_colors_within_unit_range_witness :
  exists ps',
    update smallConfig 0 cyanTheme (handAtOrigin "open") halves twoParticles = Some ps' /\
    Forall (fun c => 0 <= c <= 1) (colors ps').
Proof.
  destruct (update_colors_within_unit_range smallConfig 0 cyanTheme
              (handAtOrigin "open") halves twoParticles) as (ps' & E & _ & F).
  - unfold wellFormed. cbn. repeat split; reflexivity.
  - unfold unitColor. cbn. lra.
  - unfold unitColor. cbn. lra.
  - exists ps'. split; [exact E | exact F].
Defined.

(** ** Targets are read-only in [update] *)

Lemma updateParticle_targets cfg time theme ist rnd ps i ps' :
  updateParticle cfg time theme ist rnd ps i = Some ps' ->
  targetPositions ps' = targetPositions ps.
Proof.
  unfold updateParticle. intros H.
  destruct (currentPositions ps !! i); [|discriminate].
  destruct (velocities ps !! i); [|discriminate].
  destruct (targetPositions ps !! i); [|discriminate].
  cbn in H. injection H as <-. reflexivity.
Qed.

Lemma updateFrom_targets cfg time theme ist rnd n : forall i ps ps',
  updateFrom cfg time theme ist rnd n i ps = Some ps' ->
  targetPositions ps' = targetPositions ps.
Proof.
  induction n as [|n IH]; intros i ps ps' H; cbn in H.
  - injection H as <-. reflexivity.
  - destruct (updateParticle cfg time theme ist rnd ps i) as [ps1|] eqn:E1;
      [|discriminate].
    cbn in H. apply IH in H. apply updateParticle_targets in E1. congruence.
Qed.

Lemma update_targets cfg time theme ist rnd ps ps' :
  update cfg time theme ist rnd ps = Some ps' ->
  targetPositions ps' = targetPositions ps.
Proof. apply updateFrom_targets. Qed.

(** C10. [update] never changes a target: on arrays shaped by the
    constructor it returns, and the target array after the call is the one
    before it, for every time, theme and interaction state.  In the
    application the animation step therefore keeps the targets, and the
    hand-tracking callback changes them only when it switches to another
    theme, through [generateTextParticles] on that theme's text. *)
Theorem update_leaves_targets_unchanged cfg time theme ist rnd ps :
  wellFormed cfg ps ->
  (exists ps',
     update cfg time theme ist rnd ps = Some ps' /\
     targetPositions ps' = targetPositions ps) /\
  (forall key app',
     animate cfg time rnd ist (mkApp key ps) = Some app' ->
     targetPositions (particleSystem app') = targetPositions ps) /\
  (forall render sorter key app',
     onHandTrackingUpdate cfg render sorter rnd ist (mkApp key ps) = Some app' ->
     targetPositions (particleSystem app') <> targetPositions ps ->
     currentTheme app' <> key /\
     exists theme', THEMES (mode ist) = Some theme' /\
       generateTextParticles cfg render sorter rnd (text theme') ps
         = Some (particleSystem app')).
Proof.
  intros W. split; [|split].
  - destruct (update_total cfg time theme ist rnd ps W) as (ps' & E & T & _).
    exists ps'. split; assumption.
  - intros key app'. unfold animate. cbn.
    destruct (THEMES key) as [th|]; [|discriminate]. cbn.
    destruct (update cfg time th ist rnd ps) as [ps'|] eqn:E; [|discriminate].
    cbn. intros H. injection H as <-. cbn. eapply update_targets; eassumption.
  - intros render sorter key app'. unfold onHandTrackingUpdate. cbn.
    destruct ((1 <=? mode ist)%Z && (mode ist <=? 3)%Z && negb (key =? mode ist)%Z)%bool
      eqn:G.
    + destruct (THEMES (mode ist)) as [th|]; [|discriminate]. cbn.
      destruct (generateTextParticles cfg render sorter rnd (text th) ps)
        as [ps'|] eqn:E; [|discriminate].
      cbn. intros H _. injection H as <-. cbn. split.
      * apply andb_prop in G. destruct G as [_ G].
        apply negb_true_iff in G. apply Z.eqb_neq in G. congruence.
      * exists th. split; [reflexivity | exact E].
    + intros H Hne. injection H as <-. cbn in Hne. congruence.
Qed.

Lemma update_leaves_targets_unchanged_witness :
  exists ps',
    update smallConfig 0 cyanTheme (handAtOrigin "fist") halves twoParticles = Some ps' /\
    targetPositions ps' = targetPositions twoParticles.
Proof.
  apply (update_leaves_targets_unchanged smallConfig 0 cyanTheme
           (handAtOrigin "fist") halves twoParticles).
  unfold wellFormed. cbn. repeat split; reflexivity.
Defined.

(** ** No hand in the frame *)

Lemma handInteraction_absent cfg rhPos rhAction p v :
  x rhPos = 9999 -> handInteraction cfg rhPos rhAction p v = v.
Proof.
  intros Hx. unfold handInteraction.
  apply Rneqb_false in Hx. rewrite Hx. reflexivity.
Qed.

Lemma tempColor_absent cfg time theme rhPos p :
  x rhPos = 9999 -> tempColor cfg time theme rhPos p = baseColor time theme p.
Proof.
  intros Hx. unfold tempColor.
  apply Rneqb_false in Hx. rewrite Hx. reflexivity.
Qed.

Lemma processResults_zero_hands pl pr results st :
  handCount results = 0%nat ->
  processResults pl pr results st = Some (resetState st).
Proof.
  unfold handCount, processResults. intros H.
  destruct (multiHandLandmarks results) as [lms|]; [|reflexivity].
  destruct lms; [|discriminate].
  destruct (multiHandedness results); reflexivity.
Qed.

(** C4. On a detector result with no hand, whatever the two per-hand
    procedures of the tracker are, the classifier returns the state with the
    action "neutral", the position (9999, 9999, 0) and the mode it had, and
    a second call on that state returns it again.  An [update] that reads
    this state adds no hand force to any particle (the velocity is friction
    times the sum of old velocity, spring force and noise) and stores for
    every particle the boosted blend of the two theme colours, without the
    hand-proximity effect. *)
Theorem zero_hands_give_sentinel_and_no_hand_effect
    pl pr cfg time theme rnd results st ps :
  handCount results = 0%nat ->
  wellFormed cfg ps ->
  exists st',
    processResults pl pr results st = Some st' /\
    rightHandAction st' = "neutral" /\
    rightHandPos st' = mkVector3 9999 9999 0 /\
    mode st' = mode st /\
    processResults pl pr results st' = Some st' /\
    exists ps',
      update cfg time theme st' rnd ps = Some ps' /\
      forall i p v t,
        (i < particleCount cfg)%nat ->
        currentPositions ps !! i = Some p ->
        velocities ps !! i = Some v ->
        targetPositions ps !! i = Some t ->
        handForce cfg (rightHandPos st') (rightHandAction st') p = mkVector3 0 0 0 /\
        velocities ps' !! i =
          Some (scale (friction cfg)
                  (add (add v (springForce cfg p t)) (noiseTerm (noiseDraws rnd i)))) /\
        let c := baseColor time theme p in
        colors ps' !! (i * 3)%nat = Some (Rmin 1.0 (r c * 1.2)) /\
        colors ps' !! (i * 3 + 1)%nat = Some (Rmin 1.0 (g c * 1.2)) /\
        colors ps' !! (i * 3 + 2)%nat = Some (Rmin 1.0 (b c * 1.2)).
Proof.
  intros H0 W.
  exists (resetState st).
  split; [apply processResults_zero_hands; exact H0|].
  split; [reflexivity|]. split; [reflexivity|]. split; [reflexivity|].
  split; [rewrite processResults_zero_hands by exact H0; reflexivity|].
  destruct (update_total cfg time theme (resetState st) rnd ps W)
    as (ps' & E & _ & _ & P).
  exists ps'. split; [exact E|].
  intros i p v t Hi Ep Ev Et.
  destruct (P i Hi) as (p0 & v0 & t0 & Ep0 & Ev0 & Et0 & Q1 & _ & _ & Q4).
  rewrite Ep in Ep0. rewrite Ev in Ev0. rewrite Et in Et0.
  injection Ep0 as <-. injection Ev0 as <-. injection Et0 as <-.
  assert (Hs : x (rightHandPos (resetState st)) = 9999) by reflexivity.
  split; [unfold handForce; apply handInteraction_absent; exact Hs|].
  split.
  - rewrite Q1. f_equal. unfold stepVelocity.
    rewrite (handInteraction_absent _ _ _ _ _ Hs).
    unfold applyFriction, randomNoise, returnForce, springForce, noiseTerm,
      scale, add, sub. cbn. f_equal; ring.
  - destruct W as (_ & _ & _ & _ & W5).
    unfold storedColor in Q4. rewrite (tempColor_absent _ _ _ _ _ Hs) in Q4.
    apply Q4. lia.
Qed.

Lemma zero_hands_give_sentinel_and_no_hand_effect_witness :
  exists st',
    HandTrackerAvg.processResults CONFIG (mkWindow 1280 720)
      (mkResults (Some []) (Some [])) (handAtOrigin "fist") = Some st' /\
    rightHandAction st' = "neutral" /\
    rightHandPos st' = mkVector3 9999 9999 0.
Proof.
  destruct (zero_hands_give_sentinel_and_no_hand_effect
              HandTrackerAvg.processLeftHand
              (HandTrackerAvg.processRightHand CONFIG (mkWindow 1280 720))
              smallConfig 0 cyanTheme halves
              (mkResults (Some []) (Some [])) (handAtOrigin "fist") twoParticles)
    as (st' & E & A & B & _).
  - reflexivity.
  - unfold wellFormed. cbn. repeat split; reflexivity.
  - exists st'. split; [exact E|]. split; [exact A | exact B].
Defined.

(** ** Landmark arrays *)

Lemma tipAbove_total (lm : list Landmark) tip pip :
  (tip < length lm)%nat -> (pip < length lm)%nat ->
  exists c, tipAbove lm tip pip = Some c.
Proof.
  intros Ht Hp. unfold tipAbove.
  destruct (lookup_lt_is_Some_2 _ _ Ht) as [t ->].
  destruct (lookup_lt_is_Some_2 _ _ Hp) as [q ->].
  cbn. eauto.
Qed.

Lemma tipBelow_total (lm : list Landmark) tip pip :
  (tip < length lm)%nat -> (pip < length lm)%nat ->
  exists c, tipBelow lm tip pip = Some c.
Proof.
  intros Ht Hp. unfold tipBelow.
  destruct (lookup_lt_is_Some_2 _ _ Ht) as [t ->].
  destruct (lookup_lt_is_Some_2 _ _ Hp) as [q ->].
  cbn. eauto.
Qed.

Lemma tipBelow_length (lm : list Landmark) tip pip c :
  tipBelow lm tip pip = Some c -> (tip < length lm)%nat.
Proof.
  unfold tipBelow. destruct (lm !! tip) eqn:E; [|discriminate].
  intros _. eapply lookup_lt_Some; eassumption.
Qed.


Lemma curledFingers_length lm c :
  curledFingers lm = Some c -> (20 < length lm)%nat.
Proof.
  unfold curledFingers.
  destruct (tipBelow lm 8 6); [|discriminate]; cbn.
  destruct (tipBelow lm 12 10); [|discriminate]; cbn.
  destruct (tipBelow lm 16 14); [|discriminate]; cbn.
  destruct (tipBelow lm 20 18) eqn:E; [|discriminate]; cbn.
  intros _. eapply tipBelow_length; eassumption.
Qed.

Lemma curledFingers_total lm :
  (20 < length lm)%nat -> exists c, curledFingers lm = Some c.
Proof.
  intros H. unfold curledFingers.
  destruct (tipBelow_total lm 8 6) as [c1 ->]; try lia.
  destruct (tipBelow_total lm 12 10) as [c2 ->]; try lia.
  destruct (tipBelow_total lm 16 14) as [c3 ->]; try lia.
  destruct (tipBelow_total lm 20 18) as [c4 ->]; try lia.
  cbn. eauto.
Qed.

Lemma avgDist_total lm :
  (20 < length lm)%nat -> exists d, HandTrackerAvg.avgDist lm = Some d.
Proof.
  intros H. unfold HandTrackerAvg.avgDist.
  destruct (lookup_lt_is_Some_2 lm 8) as [t8 ->]; try lia.
  destruct (lookup_lt_is_Some_2 lm 12) as [t12 ->]; try lia.
  destruct (lookup_lt_is_Some_2 lm 16) as [t16 ->]; try lia.
  destruct (lookup_lt_is_Some_2 lm 20) as [t20 ->]; try lia.
  destruct (lookup_lt_is_Some_2 lm 0) as [w ->]; try lia.
  cbn. eauto.
Qed.

Lemma avgDist_length lm d :
  HandTrackerAvg.avgDist lm = Some d -> (20 < length lm)%nat.
Proof.
  unfold HandTrackerAvg.avgDist.
  destruct (lm !! 8%nat); [|discriminate]; cbn.
  destruct (lm !! 12%nat); [|discriminate]; cbn.
  destruct (lm !! 16%nat); [|discriminate]; cbn.
  destruct (lm !! 20%nat) eqn:E; [|discriminate]; cbn.
  intros _. eapply lookup_lt_Some; eassumption.
Qed.

Lemma avgTipToPipDist_total lm :
  (20 < length lm)%nat -> exists d, avgTipToPipDist lm = Some d.
Proof.
  intros H. unfold avgTipToPipDist.
  destruct (lookup_lt_is_Some_2 lm 8) as [t8 ->]; try lia.
  destruct (lookup_lt_is_Some_2 lm 12) as [t12 ->]; try lia.
  destruct (lookup_lt_is_Some_2 lm 16) as [t16 ->]; try lia.
  destruct (lookup_lt_is_Some_2 lm 20) as [t20 ->]; try lia.
  destruct (lookup_lt_is_Some_2 lm 6) as [p6 ->]; try lia.
  destruct (lookup_lt_is_Some_2 lm 10) as [p10 ->]; try lia.
  destruct (lookup_lt_is_Some_2 lm 14) as [p14 ->]; try lia.
  destruct (lookup_lt_is_Some_2 lm 18) as [p18 ->]; try lia.
  cbn. eauto.
Qed.

(** Distance between two landmarks on one vertical line. *)
Lemma dist2d_vertical (a c : Landmark) :
  x a = x c -> y c <= y a -> dist2d a c = y a - y c.
Proof.
  intros Hx Hy. unfold dist2d. rewrite Hx.
  replace ((x c - x c) ^ 2 + (y a - y c) ^ 2) with ((y a - y c) * (y a - y c)) by ring.
  apply sqrt_square. lra.
Qed.

(** ** The dominant hand: fist by curl *)

(** C6. A dominant hand with four curled fingers and an average
    fingertip-to-mid-joint distance of 0.03 is classified "fist" by both
    curl-analysing variants, whatever its average fingertip-to-wrist
    distance. *)
Theorem four_curled_fingers_make_fist cfg win lm st :
  curledFingers lm = Some 4%Z ->
  avgTipToPipDist lm = Some 0.03 ->
  (exists st',
     HandTrackerCurl.processRightHand cfg win lm st = Some st' /\
     rightHandAction st' = "fist") /\
  (exists st',
     HandTrackerFingers.processRightHand cfg win lm st = Some st' /\
     rightHandAction st' = "fist").
Proof.
  intros Hc Ht.
  pose proof (curledFingers_length _ _ Hc) as Hlen.
  destruct (lookup_lt_is_Some_2 lm 9) as [lm9 E9]; [lia|].
  destruct (avgDist_total lm Hlen) as [d Ed].
  assert (Hf : isFist cfg 4 0.03 d = true).
  { unfold isFist. cbn [Z.leb Z.compare Pos.compare Pos.compare_cont andb].
    replace (Rltb 0.03 0.08) with true by (symmetry; apply Rltb_true; lra).
    reflexivity. }
  split.
  - unfold HandTrackerCurl.processRightHand.
    rewrite E9, Hc, Ed, Ht. cbn [mbind option_bind]. rewrite Hf.
    eexists. split; reflexivity.
  - unfold HandTrackerFingers.processRightHand.
    rewrite E9, Hc, Ed, Ht. cbn [mbind option_bind].
    destruct (tipAbove_total lm 8 6) as [c1 ->]; try lia.
    destruct (tipBelow_total lm 12 10) as [c2 ->]; try lia.
    destruct (tipBelow_total lm 16 14) as [c3 ->]; try lia.
    destruct (tipBelow_total lm 20 18) as [c4 ->]; try lia.
    cbn [mbind option_bind]. rewrite Hf.
    eexists. split; reflexivity.
Qed.

(** The measurements of a hand built by [handWith]. *)

Lemma handWith_avgDist wrist pip tip :
  HandTrackerAvg.avgDist (handWith wrist pip tip) = Some (dist2d tip wrist).
Proof. unfold HandTrackerAvg.avgDist, handWith. cbn. f_equal. lra. Qed.

Lemma handWith_avgTipToPipDist wrist pip tip :
  avgTipToPipDist (handWith wrist pip tip) = Some (dist2d tip pip).
Proof. unfold avgTipToPipDist, handWith. cbn. f_equal. lra. Qed.

Lemma handWith_curledFingers wrist pip tip :
  y pip < y tip -> curledFingers (handWith wrist pip tip) = Some 4%Z.
Proof.
  intros H. unfold curledFingers, tipBelow, handWith. cbn.
  unfold Rgtb. apply Rltb_true in H. rewrite H. reflexivity.
Qed.

Lemma four_curled_fingers_make_fist_witness :
  exists st',
    HandTrackerCurl.processRightHand CONFIG screen curledFarFromWrist
      initialInteractionState = Some st' /\
    rightHandAction st' = "fist".
Proof.
  apply (four_curled_fingers_make_fist CONFIG screen curledFarFromWrist
           initialInteractionState).
  - apply handWith_curledFingers. cbn. lra.
  - unfold curledFarFromWrist. rewrite handWith_avgTipToPipDist.
    rewrite dist2d_vertical by (cbn; lra). cbn. f_equal. lra.
Defined.

(** ** The dominant hand: distance exactly on a threshold *)

(** C7, as the code has it.  When the average fingertip-to-wrist distance is
    exactly [fistThreshold] or exactly [openThreshold] (the first not above
    the second, as configured), neither strict comparison holds.  The
    distance-only tracker then answers "neutral".  The curl-analysing
    tracker answers "neutral" unless its curl rule applies (three or more
    curled fingers and an average fingertip-to-mid-joint distance below
    0.08), in which case it answers "fist". *)
Theorem threshold_distance_is_neutral_unless_curled cfg win lm st d :
  fistThreshold (interaction cfg) <= openThreshold (interaction cfg) ->
  HandTrackerAvg.avgDist lm = Some d ->
  d = fistThreshold (interaction cfg) \/ d = openThreshold (interaction cfg) ->
  Rltb d (fistThreshold (interaction cfg)) = false /\
  Rgtb d (openThreshold (interaction cfg)) = false /\
  (exists st',
     HandTrackerAvg.processRightHand cfg win lm st = Some st' /\
     rightHandAction st' = "neutral") /\
  (exists st' curled avgTipToPip,
     curledFingers lm = Some curled /\
     avgTipToPipDist lm = Some avgTipToPip /\
     HandTrackerCurl.processRightHand cfg win lm st = Some st' /\
     rightHandAction st' =
       if ((3 <=? curled)%Z && Rltb avgTipToPip 0.08)%bool then "fist" else "neutral").
Proof.
  intros Hord Ed Hd.
  assert (Hf : Rltb d (fistThreshold (interaction cfg)) = false)
    by (apply Rltb_false; lra).
  assert (Ho : Rgtb d (openThreshold (interaction cfg)) = false)
    by (unfold Rgtb; apply Rltb_false; lra).
  pose proof (avgDist_length _ _ Ed) as Hlen.
  destruct (lookup_lt_is_Some_2 lm 9) as [lm9 E9]; [lia|].
  split; [exact Hf|]. split; [exact Ho|]. split.
  - unfold HandTrackerAvg.processRightHand.
    rewrite E9, Ed. cbn [mbind option_bind]. rewrite Hf, Ho.
    eexists. split; reflexivity.
  - destruct (curledFingers_total lm Hlen) as [curled Ec].
    destruct (avgTipToPipDist_total lm Hlen) as [atp Et].
    unfold HandTrackerCurl.processRightHand.
    rewrite E9, Ec, Ed, Et. cbn [mbind option_bind].
    unfold isFist. rewrite Hf, Ho.
    eexists. exists curled, atp.
    split; [reflexivity|]. split; [reflexivity|]. split; [reflexivity|].
    cbn [rightHandAction setRightHand].
    rewrite orb_false_r, andb_false_r.
    destruct ((3 <=? curled)%Z && Rltb atp 0.08)%bool; reflexivity.
Qed.

Lemma fistAtThreshold_avgDist :
  HandTrackerAvg.avgDist fistAtThreshold = Some (fistThreshold (interaction CONFIG)).
Proof.
  unfold fistAtThreshold. rewrite handWith_avgDist.
  rewrite dist2d_vertical by (cbn; lra). cbn. f_equal. lra.
Qed.

Lemma threshold_distance_is_neutral_unless_curled_witness :
  exists st',
    HandTrackerAvg.processRightHand CONFIG screen fistAtThreshold
      initialInteractionState = Some st' /\
    rightHandAction st' = "neutral".
Proof.
  destruct (threshold_distance_is_neutral_unless_curled CONFIG screen
              fistAtThreshold initialInteractionState
              (fistThreshold (interaction CONFIG))) as (_ & _ & H & _).
  - cbn. lra.
  - exact fistAtThreshold_avgDist.
  - left. reflexivity.
  - exact H.
Defined.

(** C7 as stated fails on the curl-analysing tracker: the hand
    [fistAtThreshold] has an average fingertip-to-wrist distance of exactly
    [fistThreshold], and is classified "fist", not "neutral". *)
Lemma threshold_distance_can_be_fist :
  HandTrackerAvg.avgDist fistAtThreshold = Some (fistThreshold (interaction CONFIG)) /\
  exists st',
    HandTrackerCurl.processRightHand CONFIG screen fistAtThreshold
      initialInteractionState = Some st' /\
    rightHandAction st' = "fist" /\
    rightHandAction st' <> "neutral".
Proof.
  split; [exact fistAtThreshold_avgDist|].
  unfold HandTrackerCurl.processRightHand.
  rewrite fistAtThreshold_avgDist.
  unfold fistAtThreshold.
  rewrite handWith_curledFingers by (cbn; lra).
  rewrite handWith_avgTipToPipDist.
  rewrite dist2d_vertical by (cbn; lra).
  cbn [lookup list_lookup handWith mbind option_bind].
  assert (Hf : isFist CONFIG 4 (y (mkVector3 0 0.15 0) - y (mkVector3 0 0.14 0))
                 (fistThreshold (interaction CONFIG)) = true).
  { unfold isFist. cbn [Z.leb Z.compare Pos.compare Pos.compare_cont andb y].
    replace (Rltb (0.15 - 0.14) 0.08) with true by (symmetry; apply Rltb_true; lra).
    reflexivity. }
  rewrite Hf.
  eexists. split; [reflexivity|]. split; [reflexivity|]. discriminate.
Qed.

(** ** The non-dominant hand: committing and keeping the mode *)

Lemma commitMode_mode lo hi fingers st :
  mode (commitMode lo hi fingers st) =
    if ((lo <=? fingers)%Z && (fingers <=? hi)%Z)%bool then fingers else mode st.
Proof.
  unfold commitMode.
  destruct ((lo <=? fingers)%Z && (fingers <=? hi)%Z)%bool; cbn; [|reflexivity].
  destruct (mode st =? fingers)%Z eqn:E; cbn; [|reflexivity].
  now apply Z.eqb_eq in E.
Qed.








Lemma handWith_tipAbove wrist pip tip :
  y tip < y pip ->
  tipAbove (handWith wrist pip tip) 8 6 = Some true /\
  tipAbove (handWith wrist pip tip) 12 10 = Some true /\
  tipAbove (handWith wrist pip tip) 16 14 = Some true /\
  tipAbove (handWith wrist pip tip) 20 18 = Some true.
Proof.
  intros H. apply Rltb_true in H.
  unfold tipAbove, handWith. cbn. rewrite H. repeat split; reflexivity.
Qed.


(** In the tracker without the thumb test the same hand counts four
    fingers, which is outside its mode range 1..3: the mode is left as it
    was. *)
Lemma four_extended_fingers_outside_short_range lm st :
  tipAbove lm 8 6 = Some true ->
  tipAbove lm 12 10 = Some true ->
  tipAbove lm 16 14 = Some true ->
  tipAbove lm 20 18 = Some true ->
  HandTrackerAvg.fingerCount lm = Some 4%Z /\
  HandTrackerAvg.processLeftHand lm st = Some st.
Proof.
  intros H8 H12 H16 H20.
  assert (E : HandTrackerAvg.fingerCount lm = Some 4%Z).
  { unfold HandTrackerAvg.fingerCount. rewrite H8, H12, H16, H20. reflexivity. }
  split; [exact E|].
  unfold HandTrackerAvg.processLeftHand. rewrite E. reflexivity.
Qed.

(** ** The shuffle *)

Lemma applyOrder_seq_from {A : Type} (l : list A) : forall pre : list A,
  omap (fun i => (pre ++ l)%list !! i) (seq (length pre) (length l)) = l.
Proof.
  induction l as [|a l IH]; intros pre; [reflexivity|].
  cbn [length seq]. cbn [omap list_omap].
  rewrite list_lookup_middle by reflexivity.
  f_equal.
  specialize (IH (pre ++ [a])%list).
  rewrite <- app_assoc in IH. cbn [app] in IH.
  rewrite length_app in IH. cbn [length] in IH.
  replace (length pre + 1)%nat with (S (length pre)) in IH by lia.
  exact IH.
Qed.

Lemma applyOrder_identity {A : Type} (l : list A) :
  applyOrder (seq 0 (length l)) l = l.
Proof. exact (applyOrder_seq_from l []). Qed.

Lemma applyOrder_Permutation {A : Type} (order : list nat) (l : list A) :
  Permutation order (seq 0 (length l)) -> Permutation l (applyOrder order l).
Proof.
  intros H. unfold applyOrder.
  rewrite H. fold (applyOrder (seq 0 (length l)) l).
  now rewrite applyOrder_identity.
Qed.

Lemma runSort_sortsLength n rnd t : forall k,
  sortsLength n t -> Permutation (fst (runSort t rnd k)) (seq 0 n).
Proof.
  induction t as [order|t1 IH1 t2 IH2 t3 IH3]; intros k H.
  - exact H.
  - destruct H as (H1 & H2 & H3). cbn [runSort].
    destruct (Rltb (rnd k - 0.5) 0); [now apply IH1|].
    destruct (Rgtb (rnd k - 0.5) 0); [now apply IH3 | now apply IH2].
Qed.

Lemma coinSorter_sortsLength n : sortsLength n (coinSorter n).
Proof.
  destruct n as [|[|[|n]]]; cbn; try reflexivity.
  repeat split; try reflexivity. apply perm_swap.
Qed.


(** [prob] counts runs: among the [2 ^ d] equally likely sequences of [d]
    signs, [d] at least the depth of the sort, the fraction of those that
    end with [order] is [prob t order]. *)







(** The arrangement reached by the sort on the draws of [rnd] is the one
    reached on the signs of those draws, as long as no draw is exactly one
    half. *)
Lemma runSort_runSigns t rnd : forall k d,
  (forall j, rnd j <> 0.5) ->
  (depth t <= d)%nat ->
  runSigns t (signsOf rnd k d) = Some (fst (runSort t rnd k)).
Proof.
  induction t as [o|t1 IH1 t2 _ t3 IH3]; intros k d Hr Hd.
  - reflexivity.
  - cbn [depth] in Hd. destruct d as [|d]; [lia|].
    unfold signsOf. cbn [seq map runSigns runSort].
    destruct (Rltb (rnd k - 0.5) 0) eqn:E.
    + apply IH1; [exact Hr | lia].
    + apply Rltb_false in E.
      assert (G : Rgtb (rnd k - 0.5) 0 = true).
      { unfold Rgtb. apply Rltb_true. specialize (Hr k). lra. }
      rewrite G. apply IH3; [exact Hr | lia].
Qed.


Lemma shuffledPoints_Permutation cfg sorter rnd data :
  (forall n, sortsLength n (sorter n)) ->
  Permutation (samplePoints (textCanvas cfg) data)
    (fst (shuffledPoints cfg sorter rnd data)).
Proof.
  intros Hs. unfold shuffledPoints.
  set (validPoints := samplePoints (textCanvas cfg) data).
  pose proof (runSort_sortsLength (length validPoints) rnd
                (sorter (length validPoints)) 0 (Hs _)) as Hp.
  destruct (runSort (sorter (length validPoints)) rnd 0) as [order k].
  cbn [fst] in *. now apply applyOrder_Permutation.
Qed.



(** ** Targets after text generation *)

Lemma fillTargets_total validPoints rnd n : forall i k (targets : list Vector3),
  (i + n <= length targets)%nat ->
  exists targets',
    fillTargets validPoints rnd n i k targets = Some targets' /\
    length targets' = length targets /\
    (forall j, (j < i \/ i + n <= j)%nat -> targets' !! j = targets !! j) /\
    (forall j, (i <= j < i + n)%nat ->
       targets' !! j = Some (targetFor validPoints rnd k i j)).
Proof.
  induction n as [|n IH]; intros i k targets Hlen.
  - exists targets. cbn. repeat split; intros; lia.
  - destruct (lookup_lt_is_Some_2 targets i) as [t0 E0]; [lia|].
    cbn [fillTargets]. rewrite E0. cbn [mbind option_bind].
    destruct (validPoints !! i) as [pt|] eqn:Ev.
    + destruct (IH (S i) k (<[i := mkVector3 (gx pt) (gy pt) 0]> targets))
        as (targets' & E & L & O & P); [rewrite length_insert; lia|].
      exists targets'. split; [exact E|].
      rewrite length_insert in L. split; [exact L|]. split.
      * intros j Hj. rewrite O by lia. apply list_lookup_insert_ne. lia.
      * intros j Hj. destruct (Nat.eq_dec j i) as [->|Hne].
        -- rewrite O by lia. rewrite list_lookup_insert_eq by lia.
           unfold targetFor. rewrite Ev. reflexivity.
        -- rewrite P by lia. unfold targetFor.
           destruct (validPoints !! j) eqn:Ej; [reflexivity|].
           apply lookup_lt_Some in Ev.
           f_equal. f_equal. f_equal. lia.
    + destruct (IH (S i) (k + 3)%nat (<[i := fallbackTarget rnd k]> targets))
        as (targets' & E & L & O & P); [rewrite length_insert; lia|].
      exists targets'. split; [exact E|].
      rewrite length_insert in L. split; [exact L|]. split.
      * intros j Hj. rewrite O by lia. apply list_lookup_insert_ne. lia.
      * apply lookup_ge_None in Ev.
        intros j Hj. destruct (Nat.eq_dec j i) as [->|Hne].
        -- rewrite O by lia. rewrite list_lookup_insert_eq by lia.
           unfold targetFor.
           replace (validPoints !! i) with (@None GlyphPoint)
             by (symmetry; apply lookup_ge_None; lia).
           f_equal. f_equal. lia.
        -- rewrite P by lia. unfold targetFor.
           replace (validPoints !! j) with (@None GlyphPoint)
             by (symmetry; apply lookup_ge_None; lia).
           f_equal. f_equal. lia.
Qed.

Lemma fallbackTarget_on_ring rnd k :
  0 <= rnd k < 1 ->
  0 <= rnd (k + 1)%nat < 1 ->
  0 <= rnd (k + 2)%nat < 1 ->
  let target := fallbackTarget rnd k in
  let angle := rnd k * PI * 2 in
  let radius := 500 + rnd (k + 1)%nat * 500 in
  target = mkVector3 (cos angle * radius) (sin angle * radius)
             ((rnd (k + 2)%nat - 0.5) * 400) /\
  0 <= angle < 2 * PI /\
  500 <= radius < 1000 /\
  sqrt (x target * x target + y target * y target) = radius /\
  -200 <= z target < 200.
Proof.
  intros H0 H1 H2. cbn zeta.
  split; [reflexivity|].
  pose proof PI_RGT_0 as Hpi.
  split; [nra|]. split; [lra|]. split.
  - unfold fallbackTarget. cbn [x y].
    set (a := rnd k * PI * 2). set (rad := 500 + rnd (k + 1)%nat * 500).
    replace (cos a * rad * (cos a * rad) + sin a * rad * (sin a * rad))
      with ((Rsqr (sin a) + Rsqr (cos a)) * (rad * rad)) by (unfold Rsqr; ring).
    rewrite sin2_cos2, Rmult_1_l.
    apply sqrt_square. unfold rad. lra.
  - unfold fallbackTarget. cbn [z]. lra.
Qed.

(** C3. After [generateTextParticles] every one of the N targets is
    defined.  Below the number of sampled foreground points, target [i] is
    the [i]-th point of the shuffled sequence, at depth 0; from there on it
    is a point of a ring, at the angle [2 * PI * u] for a draw [u], at a
    radius in [500, 1000) and at a depth in [-200, 200).  Points of the shuffled sequence
    beyond the first N are not used. *)
Theorem every_particle_gets_a_target cfg render sorter rnd text ps :
  wellFormed cfg ps ->
  (forall n, sortsLength n (sorter n)) ->
  (forall k, 0 <= rnd k < 1) ->
  let validPoints := samplePoints (textCanvas cfg) (render text) in
  let shuffled := fst (shuffledPoints cfg sorter rnd (render text)) in
  let k0 := snd (shuffledPoints cfg sorter rnd (render text)) in
  Permutation validPoints shuffled /\
  exists ps',
    generateTextParticles cfg render sorter rnd text ps = Some ps' /\
    wellFormed cfg ps' /\
    forall i, (i < particleCount cfg)%nat ->
      exists target,
        targetPositions ps' !! i = Some target /\
        ((i < length validPoints)%nat ->
           exists pt, shuffled !! i = Some pt /\
                      target = mkVector3 (gx pt) (gy pt) 0) /\
        ((length validPoints <= i)%nat ->
           let k := (k0 + 3 * (i - length validPoints))%nat in
           let angle := rnd k * PI * 2 in
           let radius := 500 + rnd (k + 1)%nat * 500 in
           target = mkVector3 (cos angle * radius) (sin angle * radius)
                      ((rnd (k + 2)%nat - 0.5) * 400) /\
           0 <= angle < 2 * PI /\
           500 <= radius < 1000 /\
           sqrt (x target * x target + y target * y target) = radius /\
           -200 <= z target < 200).
Proof.
  intros W Hs Hr validPoints shuffled k0.
  assert (Hperm : Permutation validPoints shuffled).
  { now apply shuffledPoints_Permutation. }
  split; [exact Hperm|].
  pose proof (Permutation_length Hperm) as Hlen.
  destruct W as (W1 & W2 & W3 & W4 & W5).
  destruct (fillTargets_total shuffled rnd (particleCount cfg) 0 k0 (targetPositions ps))
    as (targets' & E & L & _ & P); [lia|].
  unfold generateTextParticles.
  unfold shuffled, k0 in E.
  destruct (shuffledPoints cfg sorter rnd (render text)) as [sh kk] eqn:Esh.
  cbn [fst snd] in *. rewrite E. cbn [mbind option_bind].
  eexists. split; [reflexivity|]. split.
  { unfold wellFormed. cbn. repeat split; congruence. }
  cbn [targetPositions].
  intros i Hi. exists (targetFor sh rnd kk 0 i).
  split; [apply P; lia|]. split.
  - intros Hlt.
    destruct (lookup_lt_is_Some_2 sh i) as [pt Ept]; [unfold shuffled in Hlen; lia|].
    exists pt. split; [exact Ept|]. unfold targetFor. rewrite Ept. reflexivity.
  - intros Hge. unfold targetFor.
    replace (sh !! i) with (@None GlyphPoint)
      by (symmetry; apply lookup_ge_None; unfold shuffled in Hlen; lia).
    replace (i - Nat.max 0 (length sh))%nat with (i - length validPoints)%nat
      by (unfold shuffled in Hlen; lia).
    apply fallbackTarget_on_ring; apply Hr.
Qed.

Lemma every_particle_gets_a_target_witness :
  exists ps',
    generateTextParticles smallConfig onePixel coinSorter halves "Hello" twoParticles
      = Some ps' /\
    wellFormed smallConfig ps'.
Proof.
  destruct (every_particle_gets_a_target smallConfig onePixel coinSorter halves
              "Hello" twoParticles) as (_ & ps' & E & W & _).
  - unfold wellFormed. cbn. repeat split; reflexivity.
  - exact coinSorter_sortsLength.
  - intros k. unfold halves. lra.
  - exists ps'. split; [exact E | exact W].
Defined.

(** ** The constructor *)



(** ** The theme table *)

Lemma byte_channel_unit (n : Z) : 0 <= IZR (Z.land n 255) / 255 <= 1.
Proof.
  change 255%Z with (Z.ones 8). rewrite Z.land_ones by lia.
  pose proof (Z.mod_pos_bound n (2 ^ 8) ltac:(lia)) as [Hlo Hhi].
  change (2 ^ 8)%Z with 256%Z in *.
  assert (H1 : 0 <= IZR (n mod 256)) by (apply IZR_le; lia).
  assert (H2 : IZR (n mod 256) <= 255) by (apply IZR_le; lia).
  change (IZR (Z.ones 8)) with 255.
  lra.
Qed.

Lemma hexColor_unit hex : unitColor (hexColor hex).
Proof. unfold unitColor, hexColor. cbn [r g b]. repeat split; apply byte_channel_unit. Qed.

(** Every theme of the table has its two colours in the unit range. *)
Lemma THEMES_unit key theme :
  THEMES key = Some theme -> unitColor (color1 theme) /\ unitColor (color2 theme).
Proof.
  unfold THEMES.
  repeat (destruct (_ =? _)%Z;
          [intros H; injection H as <-; split; apply hexColor_unit|]).
  discriminate.
Qed.

(** ** Small runs *)

(** The sampling loops on a canvas of two pixels keep the lit pixel. *)
Example samplePoints_onePixel :
  samplePoints (textCanvas smallConfig) (onePixel "Hello")
  = [glyphPoint (textCanvas smallConfig) 0 0].
Proof. reflexivity. Qed.

(** The grid of the configured canvas has 250 columns and 100 rows. *)
Example stride_CONFIG :
  length (stride (width (textCanvas CONFIG)) (samplingStep (textCanvas CONFIG))) = 250%nat /\
  length (stride (height (textCanvas CONFIG)) (samplingStep (textCanvas CONFIG))) = 100%nat.
Proof. split; vm_compute; reflexivity. Qed.

(** With one sampled point and two particles, particle 0 takes the point
    and particle 1 a ring point made from the first three draws. *)
Example fillTargets_one_point_two_particles rnd (pt : GlyphPoint) (t0 t1 : Vector3) :
  fillTargets [pt] rnd 2 0 0 [t0; t1]
  = Some [mkVector3 (gx pt) (gy pt) 0; fallbackTarget rnd 0].
Proof. reflexivity. Qed.

(** On two elements one fair comparison does give a uniform shuffle. *)
Lemma coinSorter_uniform_on_two : uniformShuffle 2 (coinSorter 2).
Proof.
  intros order Hp. symmetry in Hp.
  apply Permutation_length_2_inv in Hp.
  destruct Hp as [-> | ->]; vm_compute; reflexivity.
Qed.

(** The curl rule in the tracker of variant C. *)
Lemma processRightHand_curl_rule cfg win lm st curled atp :
  curledFingers lm = Some curled ->
  avgTipToPipDist lm = Some atp ->
  (3 <= curled)%Z ->
  atp < 0.08 ->
  exists st',
    HandTrackerFingers.processRightHand cfg win lm st = Some st' /\
    rightHandAction st' = "fist" /\
    mode st' = mode st.
Proof.
  intros Hc Ht H3 Ha.
  pose proof (curledFingers_length _ _ Hc) as Hlen.
  destruct (lookup_lt_is_Some_2 lm 9) as [lm9 E9]; [lia|].
  destruct (avgDist_total lm Hlen) as [d Ed].
  unfold HandTrackerFingers.processRightHand.
  rewrite E9, Hc, Ed, Ht. cbn [mbind option_bind].
  destruct (tipAbove_total lm 8 6) as [c1 ->]; try lia.
  destruct (tipBelow_total lm 12 10) as [c2 ->]; try lia.
  destruct (tipBelow_total lm 16 14) as [c3 ->]; try lia.
  destruct (tipBelow_total lm 20 18) as [c4 ->]; try lia.
  cbn [mbind option_bind]. unfold isFist.
  apply Z.leb_le in H3. apply Rltb_true in Ha. rewrite H3, Ha.
  eexists. repeat split; reflexivity.
Qed.

(** A frame with a dominant hand making a fist at the threshold distance
    and a non-dominant hand showing four fingers, seen by the tracker of
    variant C: the mode becomes 4 and the action "fist". *)
Example processResults_two_hands :
  exists st',
    HandTrackerFingers.processResults CONFIG screen
      (mkResults (Some [fistAtThreshold; fourFingersUp])
                 (Some [mkHandedness "Right"; mkHandedness "Left"]))
      initialInteractionState = Some st' /\
    mode st' = 4%Z /\
    rightHandAction st' = "fist".
Proof.
  unfold HandTrackerFingers.processResults, processResults.
  cbn [multiHandLandmarks multiHandedness processHands lookup list_lookup
       mbind option_bind label String.eqb Ascii.eqb Bool.eqb negb].
  destruct (processRightHand_curl_rule CONFIG screen fistAtThreshold
              (resetState initialInteractionState) 4
              (dist2d (mkVector3 0 0.15 0) (mkVector3 0 0.14 0)))
    as (st1 & E1 & A1 & M1).
  { apply handWith_curledFingers. cbn. lra. }
  { apply handWith_avgTipToPipDist. }
  { lia. }
  { rewrite dist2d_vertical by (cbn; lra). cbn. lra. }
  rewrite E1. cbn [mbind option_bind].
  destruct (handWith_tipAbove (mkVector3 0.5 0.9 0) (mkVector3 0.5 0.4 0)
              (mkVector3 0.5 0.2 0)) as (H8 & H12 & H16 & H20); [cbn; lra|].
  assert (Ef : HandTrackerFingers.fingerCount fourFingersUp = Some 4%Z).
  { unfold HandTrackerFingers.fingerCount, fourFingersUp.
    rewrite H8, H12, H16, H20.
    unfold HandTrackerFingers.thumbExtended, handWith.
    cbn [lookup list_lookup mbind option_bind x].
    replace (Rgtb 0 0) with false by (symmetry; apply Rltb_false; lra).
    reflexivity. }
  unfold HandTrackerFingers.processLeftHand. rewrite Ef. cbn [mbind option_bind].
  eexists. split; [reflexivity|]. split.
  - rewrite commitMode_mode. reflexivity.
  - unfold commitMode. rewrite M1. cbn. exact A1.
Qed.

(** * Further properties *)

(** ** The arrays after the constructor *)




(** ** Shape and coherence are kept *)

Lemma generateTextParticles_total cfg render sorter rnd text ps :
  wellFormed cfg ps ->
  exists ps',
    generateTextParticles cfg render sorter rnd text ps = Some ps' /\
    wellFormed cfg ps' /\
    currentPositions ps' = currentPositions ps /\
    velocities ps' = velocities ps /\
    positions ps' = positions ps /\
    colors ps' = colors ps.
Proof.
  intros (W1 & W2 & W3 & W4 & W5).
  unfold generateTextParticles.
  destruct (shuffledPoints cfg sorter rnd (render text)) as [sh k0].
  destruct (fillTargets_total sh rnd (particleCount cfg) 0 k0 (targetPositions ps))
    as (targets' & E & L & _ & _); [lia|].
  rewrite E. cbn [mbind option_bind].
  eexists. split; [reflexivity|]. cbn.
  unfold wellFormed. cbn. repeat split; congruence.
Qed.






(** X4. [generateTextParticles] changes nothing but the targets: particle
    positions, velocities and the two buffers after the call are those
    before it. *)
Theorem generateTextParticles_changes_targets_only cfg render sorter rnd text ps :
  wellFormed cfg ps ->
  exists ps',
    generateTextParticles cfg render sorter rnd text ps = Some ps' /\
    currentPositions ps' = currentPositions ps /\
    velocities ps' = velocities ps /\
    positions ps' = positions ps /\
    colors ps' = colors ps /\
    length (targetPositions ps') = length (targetPositions ps).
Proof.
  intros W.
  destruct (generateTextParticles_total cfg render sorter rnd text ps W)
    as (ps' & E & (_ & _ & W3' & _) & E1 & E2 & E3 & E4).
  destruct W as (_ & _ & W3 & _).
  exists ps'. repeat split; try assumption. congruence.
Qed.

Lemma generateTextParticles_changes_targets_only_witness :
  exists ps',
    generateTextParticles smallConfig onePixel coinSorter halves "Hello" twoParticles
      = Some ps' /\
    currentPositions ps' = currentPositions twoParticles.
Proof.
  destruct (generateTextParticles_changes_targets_only smallConfig onePixel
              coinSorter halves "Hello" twoParticles) as (ps' & E & E1 & _).
  - unfold wellFormed. cbn. repeat split; reflexivity.
  - exists ps'. split; [exact E | exact E1].
Defined.

(** ** The sampling loops *)

Lemma strideFrom_In step limit a : forall fuel start,
  In a (strideFrom fuel start limit step) <->
  exists k, (k < fuel)%nat /\ a = (start + k * step)%nat /\
            forall j, (j <= k)%nat -> (start + j * step < limit)%nat.
Proof.
  induction fuel as [|fuel IH]; intros start; cbn [strideFrom].
  - split; [intros [] | intros (k & Hk & _); lia].
  - destruct (start <? limit)%nat eqn:E.
    + apply Nat.ltb_lt in E. cbn [In]. rewrite IH. split.
      * intros [<- | (k & Hk & -> & Hall)].
        -- exists 0%nat. split; [lia|]. split; [lia|].
           intros j Hj. replace j with 0%nat by lia. lia.
        -- exists (S k). split; [lia|]. split; [lia|].
           intros j Hj. destruct j as [|j]; [lia|].
           specialize (Hall j ltac:(lia)). lia.
      * intros (k & Hk & -> & Hall). destruct k as [|k].
        -- left. lia.
        -- right. exists k. split; [lia|]. split; [lia|].
           intros j Hj. specialize (Hall (S j) ltac:(lia)). lia.
    + apply Nat.ltb_ge in E. split; [intros [] |].
      intros (k & _ & _ & Hall). specialize (Hall 0%nat ltac:(lia)). lia.
Qed.

(** With a positive step the loop visits exactly the multiples of the step
    below the limit. *)
Lemma stride_In limit step a :
  (0 < step)%nat ->
  In a (stride limit step) <-> (a < limit)%nat /\ exists k, a = (k * step)%nat.
Proof.
  intros Hs. unfold stride. rewrite strideFrom_In. split.
  - intros (k & _ & -> & Hall). split.
    + specialize (Hall k ltac:(lia)). lia.
    + exists k. lia.
  - intros (Ha & k & ->). exists k. split; [nia|]. split; [lia|].
    intros j Hj. cbn. nia.
Qed.

(** X6. With a positive sampling step, the points produced by the two
    sampling loops are exactly the images of the lit pixels of the grid: a
    point is produced if and only if it is [glyphPoint] of a pixel whose
    column is a multiple of the step below the width, whose row is a
    multiple of the step below the height, and whose red channel exceeds
    128.  Every produced point lies in the box
    [-1.1 W, 1.1 W) x (-1.1 H, 1.1 H]. *)
Theorem samplePoints_are_the_lit_grid_pixels tc data pt :
  (0 < samplingStep tc)%nat ->
  (In pt (samplePoints tc data) <->
   exists xpix ypix i j,
     xpix = (i * samplingStep tc)%nat /\ ypix = (j * samplingStep tc)%nat /\
     (xpix < width tc)%nat /\ (ypix < height tc)%nat /\
     foreground tc data xpix ypix = true /\
     pt = glyphPoint tc xpix ypix) /\
  (In pt (samplePoints tc data) ->
   - (1.1 * INR (width tc)) <= gx pt < 1.1 * INR (width tc) /\
   - (1.1 * INR (height tc)) < gy pt <= 1.1 * INR (height tc)).
Proof.
  intros Hs.
  assert (Hiff : In pt (samplePoints tc data) <->
    exists xpix ypix i j,
      xpix = (i * samplingStep tc)%nat /\ ypix = (j * samplingStep tc)%nat /\
      (xpix < width tc)%nat /\ (ypix < height tc)%nat /\
      foreground tc data xpix ypix = true /\
      pt = glyphPoint tc xpix ypix).
  { unfold samplePoints. rewrite in_flat_map. split.
    - intros (ypix & Hy & Hin). rewrite in_flat_map in Hin.
      destruct Hin as (xpix & Hx & Hin).
      apply (stride_In _ _ _ Hs) in Hy. apply (stride_In _ _ _ Hs) in Hx.
      destruct Hy as (Hy & j & ->). destruct Hx as (Hx & i & ->).
      destruct (foreground tc data (i * samplingStep tc) (j * samplingStep tc)) eqn:F;
        [|destruct Hin].
      destruct Hin as [<- | []].
      exists (i * samplingStep tc)%nat, (j * samplingStep tc)%nat, i, j.
      repeat split; assumption.
    - intros (xpix & ypix & i & j & -> & -> & Hx & Hy & F & ->).
      exists (j * samplingStep tc)%nat. split.
      + apply (stride_In _ _ _ Hs). split; [exact Hy | eauto].
      + rewrite in_flat_map. exists (i * samplingStep tc)%nat. split.
        * apply (stride_In _ _ _ Hs). split; [exact Hx | eauto].
        * rewrite F. left. reflexivity. }
  split; [exact Hiff|].
  intros Hin. apply Hiff in Hin.
  destruct Hin as (xpix & ypix & _ & _ & _ & _ & Hx & Hy & _ & ->).
  unfold glyphPoint. cbn [gx gy].
  apply lt_INR in Hx. apply lt_INR in Hy.
  pose proof (pos_INR xpix). pose proof (pos_INR ypix).
  split; split; lra.
Qed.

Lemma samplePoints_are_the_lit_grid_pixels_witness :
  In (glyphPoint (textCanvas smallConfig) 0 0)
     (samplePoints (textCanvas smallConfig) (onePixel "Hello")).
Proof.
  destruct (samplePoints_are_the_lit_grid_pixels (textCanvas smallConfig)
              (onePixel "Hello") (glyphPoint (textCanvas smallConfig) 0 0)) as [H _].
  - cbn. lia.
  - apply H. exists 0%nat, 0%nat, 0%nat, 0%nat.
    repeat split; cbn; try reflexivity; lia.
Defined.

(** ** A canvas without lit pixels *)

Lemma flat_map_nil {A B : Type} (f : A -> list B) (l : list A) :
  (forall a, In a l -> f a = []) -> flat_map f l = [].
Proof.
  induction l as [|a l IH]; intros H; [reflexivity|].
  cbn [flat_map]. rewrite (H a) by (left; reflexivity).
  cbn [app]. apply IH. intros c Hc. apply H. right. exact Hc.
Qed.

Lemma samplePoints_dark tc data :
  (forall xpix ypix, foreground tc data xpix ypix = false) ->
  samplePoints tc data = [].
Proof.
  intros Hd. unfold samplePoints.
  apply flat_map_nil. intros ypix _.
  apply flat_map_nil. intros xpix _.
  now rewrite Hd.
Qed.

(** X5. When the canvas has no pixel with a red channel above 128 (an
    empty text, a font that draws nothing), no point is sampled and every
    particle gets a ring target: particle [i] takes the three draws that
    follow those of the sort and the draws of the particles before it, and
    lies at a radius in [500, 1000). *)
Theorem dark_canvas_sends_every_particle_to_the_ring
    cfg render sorter rnd text ps :
  wellFormed cfg ps ->
  (forall k, 0 <= rnd k < 1) ->
  (forall xpix ypix, foreground (textCanvas cfg) (render text) xpix ypix = false) ->
  let k0 := snd (shuffledPoints cfg sorter rnd (render text)) in
  samplePoints (textCanvas cfg) (render text) = [] /\
  exists ps',
    generateTextParticles cfg render sorter rnd text ps = Some ps' /\
    forall i, (i < particleCount cfg)%nat ->
      let target := fallbackTarget rnd (k0 + 3 * i) in
      let radius := 500 + rnd (k0 + 3 * i + 1)%nat * 500 in
      targetPositions ps' !! i = Some target /\
      500 <= radius < 1000 /\
      sqrt (x target * x target + y target * y target) = radius.
Proof.
  intros W Hr Hd k0.
  pose proof (samplePoints_dark (textCanvas cfg) (render text) Hd) as Ev.
  split; [exact Ev|].
  destruct W as (W1 & W2 & W3 & W4 & W5).
  assert (Esh : shuffledPoints cfg sorter rnd (render text) = ([], k0)).
  { unfold k0, shuffledPoints. rewrite Ev.
    destruct (runSort (sorter (length [])) rnd 0) as [order k]. cbn [snd].
    f_equal. unfold applyOrder. clear. induction order as [|a l IH]; [reflexivity|].
    cbn. exact IH. }
  unfold generateTextParticles. rewrite Esh.
  destruct (fillTargets_total [] rnd (particleCount cfg) 0 k0 (targetPositions ps))
    as (targets' & E & _ & _ & P); [lia|].
  rewrite E. cbn [mbind option_bind].
  eexists. split; [reflexivity|]. cbn [targetPositions].
  intros i Hi. cbn zeta.
  destruct (fallbackTarget_on_ring rnd (k0 + 3 * i)) as (_ & _ & Hrad & Hsq & _);
    try apply Hr.
  split; [|split; assumption].
  rewrite P by lia. unfold targetFor. cbn.
  do 2 f_equal. lia.
Qed.

Lemma dark_canvas_sends_every_particle_to_the_ring_witness :
  samplePoints (textCanvas smallConfig) [0; 0; 0; 255; 0; 0; 0; 255]%Z = [] /\
  exists ps',
    generateTextParticles smallConfig
      (fun _ => [0; 0; 0; 255; 0; 0; 0; 255]%Z) coinSorter halves "" twoParticles
    = Some ps'.
Proof.
  destruct (dark_canvas_sends_every_particle_to_the_ring smallConfig
              (fun _ => [0; 0; 0; 255; 0; 0; 0; 255]%Z) coinSorter halves ""
              twoParticles) as (Ev & ps' & E & _).
  - unfold wellFormed. cbn. repeat split; reflexivity.
  - intros k. unfold halves. lra.
  - intros xpix ypix. unfold foreground. cbn [textCanvas smallConfig width].
    destruct (ypix * 2 + xpix)%nat as [|[|n]]; reflexivity.
  - split; [exact Ev|]. exists ps'. exact E.
Defined.

(** ** Settling without hand and noise *)

Lemma quiet_step_energy cfg ist u p v t :
  x (rightHandPos ist) = 9999 ->
  u = mkVector3 0.5 0.5 0.5 ->
  let v' := stepVelocity cfg ist u p v t in
  energy cfg (add p v') v' t = friction cfg * energy cfg p v t.
Proof.
  intros Hx ->. cbn zeta. unfold stepVelocity.
  rewrite (handInteraction_absent _ _ _ _ _ Hx).
  unfold energy, axisEnergy, applyFriction, randomNoise, returnForce, add.
  cbn [x y z]. ring.
Qed.

Lemma energy_dominates_offset cfg p v t :
  returnSpeed cfg = 0.12 ->
  friction cfg = 0.92 ->
  0.11 * dot (sub p t) (sub p t) <= energy cfg p v t.
Proof.
  intros Hk Hf. unfold energy, axisEnergy, dot, sub. rewrite Hk, Hf. cbn [x y z].
  pose proof (pow2_ge_0 (0.02 * (x p - x t) - 0.76 * x v)).
  pose proof (pow2_ge_0 (0.02 * (y p - y t) - 0.76 * y v)).
  pose proof (pow2_ge_0 (0.02 * (z p - z t) - 0.76 * z v)).
  pose proof (pow2_ge_0 (x v)). pose proof (pow2_ge_0 (y v)).
  pose proof (pow2_ge_0 (z v)).
  nra.
Qed.

Lemma quiet_update_energy cfg time theme ist rnd ps :
  wellFormed cfg ps ->
  x (rightHandPos ist) = 9999 ->
  (forall j, rnd j = 0.5) ->
  exists ps',
    update cfg time theme ist rnd ps = Some ps' /\
    wellFormed cfg ps' /\
    forall i E, (i < particleCount cfg)%nat ->
      particleEnergy cfg ps i = Some E ->
      particleEnergy cfg ps' i = Some (friction cfg * E).
Proof.
  intros W Hx Hr.
  destruct (update_total cfg time theme ist rnd ps W) as (ps' & E & T & W' & P).
  exists ps'. split; [exact E|]. split; [exact W'|].
  intros i En Hi HE.
  destruct (P i Hi) as (p & v & t & Ep & Ev & Et & Q1 & Q2 & _).
  unfold particleEnergy in *. rewrite Ep, Ev, Et in HE. cbn in HE.
  injection HE as <-.
  rewrite Q1, Q2, T, Et. cbn [mbind option_bind]. f_equal.
  apply quiet_step_energy; [exact Hx|].
  unfold noiseDraws. now rewrite !Hr.
Qed.

(** X7. Without a dominant hand and with zero noise, every call of
    [update] multiplies a quadratic energy of each particle (in its offset
    from the target and its velocity) by the friction coefficient; after
    [n] such calls the energy is [friction ^ n] times the initial one.
    With the configured return speed 0.12 and friction 0.92 the energy
    bounds the squared distance to the target, which therefore decays
    like [0.92 ^ n]. *)
Theorem quiet_updates_settle_on_targets cfg calls ps :
  wellFormed cfg ps ->
  Forall quiet calls ->
  exists ps',
    runCalls cfg calls ps = Some ps' /\
    targetPositions ps' = targetPositions ps /\
    forall i E, (i < particleCount cfg)%nat ->
      particleEnergy cfg ps i = Some E ->
      particleEnergy cfg ps' i = Some (friction cfg ^ length calls * E) /\
      (returnSpeed cfg = 0.12 -> friction cfg = 0.92 ->
       exists d, offsetSq ps' i = Some d /\
                 0 <= d /\ 0.11 * d <= 0.92 ^ length calls * E).
Proof.
  intros W Hq. revert ps W.
  induction Hq as [|c rest Hc Hrest IH]; intros ps W.
  - exists ps. split; [reflexivity|]. split; [reflexivity|].
    intros i E Hi HE. cbn [length pow]. rewrite Rmult_1_l. split; [exact HE|].
    intros Hk Hf. unfold particleEnergy in HE. unfold offsetSq.
    destruct (currentPositions ps !! i) as [p|]; [|discriminate].
    destruct (velocities ps !! i) as [v|]; [|discriminate].
    destruct (targetPositions ps !! i) as [t|]; [|discriminate].
    cbn in HE |- *. injection HE as <-.
    eexists. split; [reflexivity|]. split; [apply dot_self_nonneg|].
    now apply energy_dominates_offset.
  - destruct c as [time theme ist rnd | ? ? ? ?]; [|destruct Hc].
    destruct Hc as [Hx Hr].
    destruct (quiet_update_energy cfg time theme ist rnd ps W Hx Hr)
      as (ps1 & E1 & W1 & P1).
    destruct (IH ps1 W1) as (ps' & E' & T' & P').
    exists ps'. cbn [runCalls runCall]. rewrite E1. cbn [mbind option_bind].
    split; [exact E'|]. split.
    { rewrite T'. eapply update_targets. eassumption. }
    intros i E Hi HE.
    destruct (P' i (friction cfg * E) Hi (P1 i E Hi HE)) as [A B].
    cbn [length pow]. split.
    + rewrite A. f_equal. ring.
    + intros Hk Hf. destruct (B Hk Hf) as (d & Ed & Hd0 & Hd).
      exists d. split; [exact Ed|]. split; [exact Hd0|].
      rewrite Hf in Hd. lra.
Qed.

Lemma quiet_updates_settle_on_targets_witness :
  exists ps',
    runCalls smallConfig
      [CallUpdate 0 cyanTheme initialInteractionState halves;
       CallUpdate 1 cyanTheme initialInteractionState halves] twoParticles = Some ps' /\
    targetPositions ps' = targetPositions twoParticles.
Proof.
  destruct (quiet_updates_settle_on_targets smallConfig
    [CallUpdate 0 cyanTheme initialInteractionState halves;
     CallUpdate 1 cyanTheme initialInteractionState halves] twoParticles)
    as (ps' & E & T & _).
  - unfold wellFormed. cbn. repeat split; reflexivity.
  - repeat constructor.
  - exists ps'. split; [exact E | exact T].
Defined.

(** ** The softened hand force *)

Lemma softened_pull_bounded a D :
  a * a + 100 <= D -> -750 <= a * (15000 / D) <= 750.
Proof.
  intros HD.
  assert (HDpos : 0 < D) by nra.
  assert (Hi : 0 < / D) by (apply Rinv_0_lt_compat; exact HDpos).
  pose proof (pow2_ge_0 (a - 10)) as Hm. pose proof (pow2_ge_0 (a + 10)) as Hp.
  assert (Hup : 0 <= (750 * D - 15000 * a) * / D).
  { apply Rmult_le_pos; [nra | lra]. }
  assert (Hlo : 0 <= (750 * D + 15000 * a) * / D).
  { apply Rmult_le_pos; [nra | lra]. }
  assert (E1 : (750 * D - 15000 * a) * / D = 750 - a * (15000 / D)) by (field; lra).
  assert (E2 : (750 * D + 15000 * a) * / D = 750 + a * (15000 / D)) by (field; lra).
  lra.
Qed.

Lemma in_range_offset_bounded a D :
  a * a + 100 <= D -> D < 50000 -> -224 <= a <= 224.
Proof.
  intros H1 H2. pose proof (pow2_ge_0 a).
  split; [destruct (Rle_dec (-224) a) | destruct (Rle_dec a 224)]; try assumption; nra.
Qed.

(** X8. With the configured constants the hand force never blows up: the
    constant 100 added to the squared distance keeps every component of
    the force, for every action and every position of hand and particle
    (also a particle exactly at the hand), between -115 and 115. *)
Theorem hand_force_is_bounded rhPos rhAction p :
  let force := handForce CONFIG rhPos rhAction p in
  -115 <= x force <= 115 /\ -115 <= y force <= 115 /\ -115 <= z force <= 115.
Proof.
  cbn zeta. unfold handForce, handInteraction.
  destruct (Rneqb (x rhPos) 9999); [|cbn; lra].
  cbn [interaction CONFIG physicsInfluenceRadius forceMultiplier].
  set (dx := x p - x rhPos). set (dy := y p - y rhPos). set (dz := z p - z rhPos).
  set (D := dx * dx + dy * dy + dz * dz + 100).
  destruct (Rltb D 50000) eqn:HD; [|cbn; lra].
  apply Rltb_true in HD.
  assert (Hx : dx * dx + 100 <= D) by (unfold D; nra).
  assert (Hy : dy * dy + 100 <= D) by (unfold D; nra).
  assert (Hz : dz * dz + 100 <= D) by (unfold D; nra).
  pose proof (softened_pull_bounded dx D Hx) as Bx.
  pose proof (softened_pull_bounded dy D Hy) as By.
  pose proof (softened_pull_bounded dz D Hz) as Bz.
  pose proof (in_range_offset_bounded dx D Hx HD) as Rx.
  pose proof (in_range_offset_bounded dy D Hy HD) as Ry.
  destruct (String.eqb rhAction "fist"); [|destruct (String.eqb rhAction "open")];
    cbn [x y z]; lra.
Qed.

(** ** The hand only brightens *)

(** X9. For theme colours in the unit range, a dominant hand never darkens
    a particle: each stored channel with the hand at any position is at
    least the channel stored when no hand is present. *)
Theorem hand_never_darkens_a_particle cfg time theme rhPos p :
  unitColor (color1 theme) ->
  unitColor (color2 theme) ->
  let withHand := storedColor cfg time theme rhPos p in
  let without := storedColor cfg time theme sentinel p in
  r without <= r withHand /\ g without <= g withHand /\ b without <= b withHand.
Proof.
  intros H1 H2. cbn zeta.
  pose proof (baseColor_unit time theme p H1 H2) as (B1 & B2 & B3).
  unfold storedColor.
  rewrite (tempColor_absent cfg time theme sentinel p) by reflexivity.
  assert (T : r (baseColor time theme p) <= r (tempColor cfg time theme rhPos p) /\
              g (baseColor time theme p) <= g (tempColor cfg time theme rhPos p) /\
              b (baseColor time theme p) <= b (tempColor cfg time theme rhPos p)).
  { unfold tempColor. fold (baseColor time theme p). cbn zeta.
    destruct (Rneqb (x rhPos) 9999); [|lra].
    destruct (Rltb _ _) eqn:Hlt; [|lra].
    apply Rltb_true in Hlt.
    pose proof (influence_bounds _ _ (distanceTo_nonneg p rhPos) Hlt) as Hi.
    unfold lerp, white. cbn [r g b]. nra. }
  destruct T as (T1 & T2 & T3). cbn [r g b].
  repeat split; apply Rle_min_compat_l; lra.
Qed.

Lemma hand_never_darkens_a_particle_witness :
  r (storedColor CONFIG 0 cyanTheme sentinel (mkVector3 10 0 0))
  <= r (storedColor CONFIG 0 cyanTheme (mkVector3 0 0 0) (mkVector3 10 0 0)).
Proof.
  apply (hand_never_darkens_a_particle CONFIG 0 cyanTheme (mkVector3 0 0 0)
           (mkVector3 10 0 0)).
  - unfold unitColor. cbn. lra.
  - unfold unitColor. cbn. lra.
Defined.

(** ** The shape of the per-hand procedures *)

Lemma leftShape_Avg : leftShape 3 HandTrackerAvg.processLeftHand.
Proof.
  intros lm st st' H. unfold HandTrackerAvg.processLeftHand in H.
  destruct (HandTrackerAvg.fingerCount lm) as [f|]; [|discriminate].
  cbn in H. injection H as <-. eauto.
Qed.

Lemma leftShape_Fingers : leftShape 5 HandTrackerFingers.processLeftHand.
Proof.
  intros lm st st' H. unfold HandTrackerFingers.processLeftHand in H.
  destruct (HandTrackerFingers.fingerCount lm) as [f|]; [|discriminate].
  cbn in H. injection H as <-. eauto.
Qed.

Lemma rightShape_Avg cfg win :
  rightShape win ["neutral"; "fist"; "open"] (HandTrackerAvg.processRightHand cfg win).
Proof.
  intros lm st st'. unfold HandTrackerAvg.processRightHand.
  destruct (lm !! 9%nat) as [lm9|]; [|discriminate]. cbn [mbind option_bind].
  destruct (HandTrackerAvg.avgDist lm) as [d|]; [|discriminate]. cbn [mbind option_bind].
  intros _. eexists lm9, _. split; [reflexivity|]. split; [|intros st2; reflexivity].
  destruct (Rltb _ _); [|destruct (Rgtb _ _)]; cbn; tauto.
Qed.

Lemma rightShape_Tip cfg win :
  rightShape win ["neutral"; "fist"; "open"] (HandTrackerTip.processRightHand cfg win).
Proof.
  intros lm st st'. unfold HandTrackerTip.processRightHand.
  destruct (lm !! 9%nat) as [lm9|]; [|discriminate]. cbn [mbind option_bind].
  destruct (lm !! 8%nat) as [t8|]; [|discriminate]. cbn [mbind option_bind].
  destruct (lm !! 0%nat) as [w|]; [|discriminate]. cbn [mbind option_bind].
  intros _. eexists lm9, _. split; [reflexivity|]. split; [|intros st2; reflexivity].
  destruct (Rltb _ _); [|destruct (Rgtb _ _)]; cbn; tauto.
Qed.

Lemma rightShape_Curl cfg win :
  rightShape win ["neutral"; "fist"; "open"] (HandTrackerCurl.processRightHand cfg win).
Proof.
  intros lm st st'. unfold HandTrackerCurl.processRightHand.
  destruct (lm !! 9%nat) as [lm9|]; [|discriminate]. cbn [mbind option_bind].
  destruct (curledFingers lm) as [c|]; [|discriminate]. cbn [mbind option_bind].
  destruct (HandTrackerAvg.avgDist lm) as [d|]; [|discriminate]. cbn [mbind option_bind].
  destruct (avgTipToPipDist lm) as [a|]; [|discriminate]. cbn [mbind option_bind].
  intros _. eexists lm9, _. split; [reflexivity|]. split; [|intros st2; reflexivity].
  destruct (isFist _ _ _ _); [|destruct (_ && _)%bool]; cbn; tauto.
Qed.

Lemma rightShape_Fingers cfg win :
  rightShape win ["neutral"; "fist"; "twoFingers"; "oneFinger"]
    (HandTrackerFingers.processRightHand cfg win).
Proof.
  intros lm st st'. unfold HandTrackerFingers.processRightHand.
  destruct (lm !! 9%nat) as [lm9|]; [|discriminate]. cbn [mbind option_bind].
  destruct (curledFingers lm) as [c|]; [|discriminate]. cbn [mbind option_bind].
  destruct (HandTrackerAvg.avgDist lm) as [d|]; [|discriminate]. cbn [mbind option_bind].
  destruct (avgTipToPipDist lm) as [a|]; [|discriminate]. cbn [mbind option_bind].
  destruct (tipAbove lm 8 6) as [c1|]; [|discriminate]. cbn [mbind option_bind].
  destruct (tipBelow lm 12 10) as [c2|]; [|discriminate]. cbn [mbind option_bind].
  destruct (tipBelow lm 16 14) as [c3|]; [|discriminate]. cbn [mbind option_bind].
  destruct (tipBelow lm 20 18) as [c4|]; [|discriminate]. cbn [mbind option_bind].
  intros _. eexists lm9, _. split; [reflexivity|]. split; [|intros st2; reflexivity].
  destruct (isFist _ _ _ _); [|destruct (_ && Rgtb _ _)%bool; [|destruct (_ && _)%bool]];
    cbn; tauto.
Qed.

Lemma basicTrackers_shape cfg win tr :
  In tr (basicTrackers cfg win) ->
  leftShape 3 (fst tr) /\ rightShape win ["neutral"; "fist"; "open"] (snd tr).
Proof.
  intros [<- | [<- | [<- | []]]]; cbn [fst snd]; split;
    auto using leftShape_Avg, rightShape_Avg, rightShape_Tip, rightShape_Curl.
Qed.

Lemma pointingTracker_shape cfg win :
  leftShape 5 (fst (pointingTracker cfg win)) /\
  rightShape win ["neutral"; "fist"; "twoFingers"; "oneFinger"]
    (snd (pointingTracker cfg win)).
Proof. split; [apply leftShape_Fingers | apply rightShape_Fingers]. Qed.

Lemma commitMode_fields lo hi f st :
  rightHandPos (commitMode lo hi f st) = rightHandPos st /\
  rightHandAction (commitMode lo hi f st) = rightHandAction st.
Proof. unfold commitMode. destruct (_ && _)%bool; split; reflexivity. Qed.

Lemma commitMode_range hi f st :
  (1 <= mode st <= hi)%Z -> (1 <= mode (commitMode 1 hi f st) <= hi)%Z.
Proof.
  intros H. rewrite commitMode_mode.
  destruct ((1 <=? f)%Z && (f <=? hi)%Z)%bool eqn:E; [|exact H].
  apply andb_prop in E. destruct E as [E1 E2].
  apply Z.leb_le in E1. apply Z.leb_le in E2. lia.
Qed.

(** What one run of the loop of [processResults] leaves in the state. *)
Lemma processHands_outcome win hi alphabet pl pr hds :
  leftShape hi pl -> rightShape win alphabet pr ->
  forall lms index st st',
    processHands pl pr hds index lms st = Some st' ->
    ((1 <= mode st <= hi)%Z -> (1 <= mode st' <= hi)%Z) /\
    match lastRightHand hds index lms with
    | None =>
        rightHandPos st' = rightHandPos st /\
        rightHandAction st' = rightHandAction st
    | Some lm =>
        exists lm9 action,
          lm !! 9%nat = Some lm9 /\ In action alphabet /\
          (forall st2, pr lm st2 = Some (setRightHand (handPosition win lm9) action st2)) /\
          rightHandPos st' = handPosition win lm9 /\
          rightHandAction st' = action
    end.
Proof.
  intros Hl Hr. induction lms as [|lm rest IH]; intros index st st' H.
  - cbn in H. injection H as <-. cbn. tauto.
  - cbn [processHands] in H.
    destruct (hds !! index) as [h|] eqn:Eh; [|discriminate].
    cbn [mbind option_bind] in H. cbn [lastRightHand]. rewrite Eh.
    destruct (String.eqb (label h) "Right") eqn:El; cbn [negb] in H.
    + destruct (pr lm st) as [st1|] eqn:E1; [|discriminate].
      cbn [mbind option_bind] in H.
      destruct (Hr lm st st1 E1) as (lm9 & action & E9 & Ha & Hall).
      rewrite (Hall st) in E1. injection E1 as <-.
      destruct (IH (S index) _ st' H) as [M F]. split; [exact M|].
      destruct (lastRightHand hds (S index) rest) as [later|]; [exact F|].
      destruct F as [F1 F2]. exists lm9, action. cbn in F1, F2. tauto.
    + destruct (pl lm st) as [st1|] eqn:E1; [|discriminate].
      cbn [mbind option_bind] in H.
      destruct (Hl lm st st1 E1) as (f & ->).
      destruct (IH (S index) _ st' H) as [M F]. split.
      * intros Hm. apply M. now apply commitMode_range.
      * destruct (lastRightHand hds (S index) rest) as [later|]; [exact F|].
        destruct (commitMode_fields 1 hi f st) as [C1 C2].
        destruct F as [F1 F2]. split; congruence.
Qed.

Lemma classify_outcome win hi alphabet (tr : Tracker) results st st' :
  leftShape hi (fst tr) -> rightShape win alphabet (snd tr) ->
  classify tr results st = Some st' ->
  ((1 <= mode st <= hi)%Z -> (1 <= mode st' <= hi)%Z) /\
  match lastRightHandOf results with
  | None => rightHandPos st' = sentinel /\ rightHandAction st' = "neutral"
  | Some lm =>
      exists lm9 action,
        lm !! 9%nat = Some lm9 /\ In action alphabet /\
        (forall st2, snd tr lm st2 = Some (setRightHand (handPosition win lm9) action st2)) /\
        rightHandPos st' = handPosition win lm9 /\
        rightHandAction st' = action
  end.
Proof.
  intros Hl Hr. unfold classify, processResults, lastRightHandOf.
  destruct (multiHandLandmarks results) as [lms|];
    [|intros H; injection H as <-; cbn; tauto].
  destruct (multiHandedness results) as [hds|];
    [|intros H; injection H as <-; cbn; tauto].
  intros H.
  destruct (processHands_outcome win hi alphabet _ _ hds Hl Hr lms 0%nat _ st' H)
    as [M F].
  split; [exact M|].
  destruct (lastRightHand hds 0 lms); [exact F|]. exact F.
Qed.

Lemma trackers_shape cfg win tr :
  In tr (trackers cfg win) ->
  exists hi alphabet,
    (3 <= hi <= 5)%Z /\ leftShape hi (fst tr) /\ rightShape win alphabet (snd tr).
Proof.
  unfold trackers. rewrite in_app_iff. intros [H | [<- | []]].
  - destruct (basicTrackers_shape cfg win tr H) as [A B].
    exists 3%Z, ["neutral"; "fist"; "open"]. split; [lia|]. split; assumption.
  - destruct (pointingTracker_shape cfg win) as [A B].
    exists 5%Z, ["neutral"; "fist"; "twoFingers"; "oneFinger"].
    split; [lia|]. split; assumption.
Qed.

(** ** What a frame leaves in the interaction state *)

Lemma twoHandsFrame_classified :
  exists st',
    classify (pointingTracker CONFIG screen) twoHandsFrame initialInteractionState
      = Some st'.
Proof.
  destruct processResults_two_hands as (st' & E & _). exists st'. exact E.
Qed.

Lemma pointingTracker_in_trackers cfg win : In (pointingTracker cfg win) (trackers cfg win).
Proof. unfold trackers. apply in_or_app. right. left. reflexivity. Qed.

(** X10. In every tracker, the dominant-hand position and action after a
    frame are those of the last hand labelled "Right" in the frame,
    processed on its own, whatever hands came before it and whatever the
    state held; a frame without such a hand leaves the position
    (9999, 9999, 0) and the action "neutral". *)
Theorem last_right_hand_decides_position_and_action cfg win tr results st st' :
  In tr (trackers cfg win) ->
  classify tr results st = Some st' ->
  match lastRightHandOf results with
  | None => rightHandPos st' = sentinel /\ rightHandAction st' = "neutral"
  | Some lm =>
      forall st0, exists st1,
        snd tr lm st0 = Some st1 /\
        rightHandPos st' = rightHandPos st1 /\
        rightHandAction st' = rightHandAction st1
  end.
Proof.
  intros Hin H.
  destruct (trackers_shape cfg win tr Hin) as (hi & alphabet & _ & Hl & Hr).
  destruct (classify_outcome win hi alphabet tr results st st' Hl Hr H) as [_ F].
  destruct (lastRightHandOf results) as [lm|]; [|exact F].
  destruct F as (lm9 & action & _ & _ & Hall & Fp & Fa).
  intros st0. eexists. split; [apply Hall|]. split; [exact Fp | exact Fa].
Qed.

Lemma last_right_hand_decides_position_and_action_witness :
  exists st' st1,
    classify (pointingTracker CONFIG screen) twoHandsFrame initialInteractionState
      = Some st' /\
    HandTrackerFingers.processRightHand CONFIG screen fistAtThreshold
      initialInteractionState = Some st1 /\
    rightHandAction st' = rightHandAction st1.
Proof.
  destruct twoHandsFrame_classified as (st' & E).
  pose proof (last_right_hand_decides_position_and_action CONFIG screen
                (pointingTracker CONFIG screen) twoHandsFrame
                initialInteractionState st'
                (pointingTracker_in_trackers CONFIG screen) E) as H.
  cbn in H. destruct (H initialInteractionState) as (st1 & E1 & _ & A).
  exists st', st1. split; [exact E|]. split; [exact E1 | exact A].
Defined.

Lemma processFrames_range win hi alphabet (tr : Tracker) frames :
  leftShape hi (fst tr) -> rightShape win alphabet (snd tr) ->
  forall st st',
    (1 <= mode st <= hi)%Z ->
    processFrames (classify tr) frames st = Some st' ->
    (1 <= mode st' <= hi)%Z.
Proof.
  intros Hl Hr. induction frames as [|results rest IH]; intros st st' Hm H.
  - cbn in H. injection H as <-. exact Hm.
  - cbn [processFrames] in H.
    destruct (classify tr results st) as [st1|] eqn:E1; [|discriminate].
    cbn [mbind option_bind] in H.
    destruct (classify_outcome win hi alphabet tr results st st1 Hl Hr E1) as [M _].
    apply (IH st1 st'); [now apply M | exact H].
Qed.

(** X11. From the constructor's state, over any sequence of frames, the
    mode of every tracker stays between 1 and 5, and between 1 and 3 for
    the three trackers without the thumb test. *)
Theorem mode_stays_in_its_range cfg win tr frames st' :
  In tr (trackers cfg win) ->
  processFrames (classify tr) frames initialInteractionState = Some st' ->
  (1 <= mode st' <= 5)%Z /\
  (In tr (basicTrackers cfg win) -> (1 <= mode st' <= 3)%Z).
Proof.
  intros Hin H. split.
  - destruct (trackers_shape cfg win tr Hin) as (hi & alphabet & Hhi & Hl & Hr).
    assert (Hm : (1 <= mode st' <= hi)%Z).
    { apply (processFrames_range win hi alphabet tr frames Hl Hr
               initialInteractionState st'); [cbn; lia | exact H]. }
    lia.
  - intros Hb. destruct (basicTrackers_shape cfg win tr Hb) as [Hl Hr].
    apply (processFrames_range win 3 _ tr frames Hl Hr initialInteractionState st');
      [cbn; lia | exact H].
Qed.

Lemma mode_stays_in_its_range_witness :
  exists st',
    processFrames (classify (pointingTracker CONFIG screen)) [twoHandsFrame]
      initialInteractionState = Some st' /\
    (1 <= mode st' <= 5)%Z.
Proof.
  destruct twoHandsFrame_classified as (st' & E).
  assert (F : processFrames (classify (pointingTracker CONFIG screen)) [twoHandsFrame]
                initialInteractionState = Some st').
  { cbn [processFrames]. rewrite E. reflexivity. }
  exists st'. split; [exact F|].
  apply (mode_stays_in_its_range CONFIG screen (pointingTracker CONFIG screen)
           [twoHandsFrame] st' (pointingTracker_in_trackers CONFIG screen) F).
Defined.



Lemma handInteraction_other_action cfg rhPos action p v :
  action <> "fist" -> action <> "open" ->
  handInteraction cfg rhPos action p v = handInteraction cfg rhPos "neutral" p v.
Proof.
  intros Hf Ho. unfold handInteraction.
  apply String.eqb_neq in Hf. apply String.eqb_neq in Ho.
  rewrite Hf, Ho. reflexivity.
Qed.

(** X13. The tracker with pointing gestures reports only "neutral",
    "fist", "twoFingers" and "oneFinger", never "open".  In [update] the
    force that follows its state is therefore the fist force or the force
    of the default branch; the branch of the action "open" is never
    taken. *)
Theorem pointing_tracker_never_reports_open cfg win results st st' :
  classify (pointingTracker cfg win) results st = Some st' ->
  (rightHandAction st' = "neutral" \/ rightHandAction st' = "fist" \/
   rightHandAction st' = "twoFingers" \/ rightHandAction st' = "oneFinger") /\
  rightHandAction st' <> "open" /\
  forall cfg' p v,
    handInteraction cfg' (rightHandPos st') (rightHandAction st') p v
      = handInteraction cfg' (rightHandPos st') "fist" p v \/
    handInteraction cfg' (rightHandPos st') (rightHandAction st') p v
      = handInteraction cfg' (rightHandPos st') "neutral" p v.
Proof.
  intros H.
  destruct (pointingTracker_shape cfg win) as [Hl Hr].
  destruct (classify_outcome win 5 _ _ results st st' Hl Hr H) as [_ F].
  assert (A : rightHandAction st' = "neutral" \/ rightHandAction st' = "fist" \/
              rightHandAction st' = "twoFingers" \/ rightHandAction st' = "oneFinger").
  { destruct (lastRightHandOf results) as [lm|].
    - destruct F as (lm9 & action & _ & Ha & _ & _ & ->).
      cbn in Ha. destruct Ha as [<- | [<- | [<- | [<- | []]]]]; tauto.
    - destruct F as [_ ->]. tauto. }
  split; [exact A|]. split.
  - destruct A as [-> | [-> | [-> | ->]]]; discriminate.
  - intros cfg' p v.
    destruct A as [-> | [-> | [-> | ->]]];
      [right | left | right | right]; try reflexivity;
      apply handInteraction_other_action; discriminate.
Qed.

Lemma pointing_tracker_never_reports_open_witness :
  exists st',
    classify (pointingTracker CONFIG screen) twoHandsFrame initialInteractionState
      = Some st' /\
    rightHandAction st' <> "open".
Proof.
  destruct twoHandsFrame_classified as (st' & E).
  exists st'. split; [exact E|].
  apply (pointing_tracker_never_reports_open CONFIG screen twoHandsFrame
           initialInteractionState st' E).
Defined.

(** ** Two trackers on the same hand *)

Lemma processRightHand_Avg_handWith cfg win wrist pip tip st :
  HandTrackerAvg.processRightHand cfg win (handWith wrist pip tip) st
  = Some (setRightHand (handPosition win (mkVector3 0 0 0))
            (if Rltb (dist2d tip wrist) (fistThreshold (interaction cfg)) then "fist"
             else if Rgtb (dist2d tip wrist) (openThreshold (interaction cfg)) then "open"
             else "neutral") st).
Proof.
  unfold HandTrackerAvg.processRightHand. rewrite handWith_avgDist. reflexivity.
Qed.

(** X14. On one and the same hand the curl-analysing tracker and the
    distance-only tracker agree on the position; whenever the distance-only
    tracker says "fist" so does the curl-analysing one, and whenever the
    curl-analysing tracker says "open" so does the distance-only one. *)
Theorem curl_tracker_widens_fist_and_narrows_open cfg win lm st a c :
  HandTrackerAvg.processRightHand cfg win lm st = Some a ->
  HandTrackerCurl.processRightHand cfg win lm st = Some c ->
  rightHandPos a = rightHandPos c /\
  mode a = mode c /\
  (rightHandAction a = "fist" -> rightHandAction c = "fist") /\
  (rightHandAction c = "open" -> rightHandAction a = "open").
Proof.
  unfold HandTrackerAvg.processRightHand, HandTrackerCurl.processRightHand.
  destruct (lm !! 9%nat) as [lm9|]; [|discriminate]. cbn [mbind option_bind].
  destruct (curledFingers lm) as [k|]; [|intros _; discriminate]. cbn [mbind option_bind].
  destruct (HandTrackerAvg.avgDist lm) as [d|]; [|discriminate]. cbn [mbind option_bind].
  destruct (avgTipToPipDist lm) as [t|]; [|intros _; discriminate].
  cbn [mbind option_bind].
  intros Ha Hc. injection Ha as <-. injection Hc as <-.
  cbn [rightHandPos rightHandAction mode setRightHand].
  split; [reflexivity|]. split; [reflexivity|].
  unfold isFist.
  destruct (Rltb d (fistThreshold (interaction cfg))) eqn:Ef.
  - rewrite orb_true_r. split; [reflexivity | discriminate].
  - rewrite orb_false_r.
    destruct ((3 <=? k)%Z && Rltb t 0.08)%bool.
    + split; [|discriminate].
      destruct (Rgtb d (openThreshold (interaction cfg))); discriminate.
    + destruct (Rgtb d (openThreshold (interaction cfg))).
      * rewrite andb_true_r. split; [discriminate | reflexivity].
      * rewrite andb_false_r. split; discriminate.
Qed.

Lemma curl_tracker_widens_fist_and_narrows_open_witness :
  exists a c,
    HandTrackerAvg.processRightHand CONFIG screen curledFarFromWrist
      initialInteractionState = Some a /\
    HandTrackerCurl.processRightHand CONFIG screen curledFarFromWrist
      initialInteractionState = Some c /\
    rightHandPos a = rightHandPos c.
Proof.
  pose proof (processRightHand_Avg_handWith CONFIG screen (mkVector3 0 0 0)
                (mkVector3 0 0.5 0) (mkVector3 0 0.53 0) initialInteractionState) as Ea.
  fold curledFarFromWrist in Ea.
  destruct (rightShape_Avg CONFIG screen curledFarFromWrist _ _ Ea)
    as (lm9 & act & E9 & _ & _).
  destruct (curledFingers_total curledFarFromWrist) as [k Ek]; [cbn; lia|].
  destruct (avgTipToPipDist_total curledFarFromWrist) as [t Et]; [cbn; lia|].
  destruct (avgDist_total curledFarFromWrist) as [d Ed]; [cbn; lia|].
  assert (Ec : exists c, HandTrackerCurl.processRightHand CONFIG screen
                 curledFarFromWrist initialInteractionState = Some c).
  { unfold HandTrackerCurl.processRightHand. rewrite E9, Ek, Ed, Et.
    cbn [mbind option_bind]. eauto. }
  destruct Ec as [c Ec].
  eexists _, c. split; [exact Ea|]. split; [exact Ec|].
  apply (curl_tracker_widens_fist_and_narrows_open CONFIG screen curledFarFromWrist
           initialInteractionState _ c Ea Ec).
Defined.

(** ** A detected hand is on the screen and is seen as present *)

Lemma handPosition_on_screen win lm9 :
  0 <= x lm9 <= 1 -> 0 <= y lm9 <= 1 ->
  0 <= innerWidth win -> 0 <= innerHeight win ->
  - (innerWidth win / 2) <= x (handPosition win lm9) <= innerWidth win / 2 /\
  - (innerHeight win / 2) <= y (handPosition win lm9) <= innerHeight win / 2 /\
  z (handPosition win lm9) = 0.
Proof.
  intros Hx Hy Hw Hh. unfold handPosition. cbn [x y z].
  repeat split; nra.
Qed.

(** X15. When the last dominant hand of a frame has its landmark 9 inside
    the picture (coordinates in [0, 1]) and the window is narrower than
    19998 pixels, every tracker leaves a position inside the window
    rectangle centred on the origin, mirrored horizontally, with depth 0;
    its first coordinate differs from 9999, so that [update] takes the
    hand as present. *)
Theorem detected_hand_is_on_screen_and_present
    cfg win tr results st st' lm lm9 :
  In tr (trackers cfg win) ->
  classify tr results st = Some st' ->
  lastRightHandOf results = Some lm ->
  lm !! 9%nat = Some lm9 ->
  0 <= x lm9 <= 1 -> 0 <= y lm9 <= 1 ->
  0 <= innerWidth win < 19998 -> 0 <= innerHeight win ->
  rightHandPos st' =
    mkVector3 ((1 - x lm9) * innerWidth win - innerWidth win / 2)
              (- (y lm9 * innerHeight win - innerHeight win / 2)) 0 /\
  - (innerWidth win / 2) <= x (rightHandPos st') <= innerWidth win / 2 /\
  - (innerHeight win / 2) <= y (rightHandPos st') <= innerHeight win / 2 /\
  Rneqb (x (rightHandPos st')) 9999 = true.
Proof.
  intros Hin H Hlast E9 Hx Hy Hw Hh.
  destruct (trackers_shape cfg win tr Hin) as (hi & alphabet & _ & Hl & Hr).
  destruct (classify_outcome win hi alphabet tr results st st' Hl Hr H) as [_ F].
  rewrite Hlast in F. destruct F as (lm9' & action & E9' & _ & _ & Fp & _).
  rewrite E9 in E9'. injection E9' as <-.
  destruct (handPosition_on_screen win lm9 Hx Hy) as (Bx & By & _); try lra.
  rewrite Fp. split; [reflexivity|]. split; [exact Bx|]. split; [exact By|].
  apply Rneqb_true. lra.
Qed.

Lemma detected_hand_is_on_screen_and_present_witness :
  exists st',
    classify (pointingTracker CONFIG screen) twoHandsFrame initialInteractionState
      = Some st' /\
    Rneqb (x (rightHandPos st')) 9999 = true.
Proof.
  destruct twoHandsFrame_classified as (st' & E).
  exists st'. split; [exact E|].
  apply (detected_hand_is_on_screen_and_present CONFIG screen
           (pointingTracker CONFIG screen) twoHandsFrame initialInteractionState st'
           fistAtThreshold (mkVector3 0 0 0)
           (pointingTracker_in_trackers CONFIG screen) E).
  - reflexivity.
  - reflexivity.
  - cbn. lra.
  - cbn. lra.
  - cbn. lra.
  - cbn. lra.
Defined.

(** ** The application glue *)

Lemma THEMES_defined key : (1 <= key <= 5)%Z -> exists theme, THEMES key = Some theme.
Proof.
  intros H. unfold THEMES.
  destruct (key =? 1)%Z eqn:E1; [eauto|].
  destruct (key =? 2)%Z eqn:E2; [eauto|].
  destruct (key =? 3)%Z eqn:E3; [eauto|].
  destruct (key =? 4)%Z eqn:E4; [eauto|].
  destruct (key =? 5)%Z eqn:E5; [eauto|].
  apply Z.eqb_neq in E1, E2, E3, E4, E5. lia.
Qed.

Lemma onHandTrackingUpdate_cases cfg render sorter rnd ist app :
  wellFormed cfg (particleSystem app) ->
  ((1 <= mode ist <= 3)%Z /\ currentTheme app <> mode ist /\
   exists theme ps',
     THEMES (mode ist) = Some theme /\
     generateTextParticles cfg render sorter rnd (text theme) (particleSystem app)
       = Some ps' /\
     wellFormed cfg ps' /\
     onHandTrackingUpdate cfg render sorter rnd ist app
       = Some {| currentTheme := mode ist; particleSystem := ps' |}) \/
  ((~ (1 <= mode ist <= 3)%Z \/ currentTheme app = mode ist) /\
   onHandTrackingUpdate cfg render sorter rnd ist app = Some app).
Proof.
  intros W. unfold onHandTrackingUpdate.
  destruct ((1 <=? mode ist)%Z && (mode ist <=? 3)%Z && negb (currentTheme app =? mode ist)%Z)%bool
    eqn:G.
  - left. apply andb_prop in G. destruct G as [G G3].
    apply andb_prop in G. destruct G as [G1 G2].
    apply Z.leb_le in G1. apply Z.leb_le in G2.
    apply negb_true_iff in G3. apply Z.eqb_neq in G3.
    split; [lia|]. split; [exact G3|].
    destruct (THEMES_defined (mode ist)) as [theme Et]; [lia|].
    destruct (generateTextParticles_total cfg render sorter rnd (text theme)
                (particleSystem app) W) as (ps' & E & W' & _).
    exists theme, ps'.
    split; [exact Et|]. split; [exact E|]. split; [exact W'|].
    rewrite Et. cbn [mbind option_bind]. rewrite E. reflexivity.
  - right. split; [|reflexivity].
    apply andb_false_iff in G. destruct G as [G | G].
    + left. apply andb_false_iff in G.
      destruct G as [G | G]; apply Z.leb_gt in G; lia.
    + right. apply negb_false_iff in G. now apply Z.eqb_eq in G.
Qed.

(** X16. The hand-tracking callback of [App] always returns on arrays of
    the constructor's shape.  A mode from 1 to 3 becomes the theme; any
    other mode (the modes 4 and 5 that the tracker with the thumb test can
    report included) leaves the application as it is, so that the theme
    key never leaves 1..3 and the themes 4 and 5 of the table are never
    shown.  When the theme does not change, nothing changes: no targets are
    regenerated. *)
Theorem theme_follows_modes_one_to_three cfg render sorter rnd ist app :
  wellFormed cfg (particleSystem app) ->
  exists app',
    onHandTrackingUpdate cfg render sorter rnd ist app = Some app' /\
    wellFormed cfg (particleSystem app') /\
    ((1 <= mode ist <= 3)%Z -> currentTheme app' = mode ist) /\
    (~ (1 <= mode ist <= 3)%Z -> app' = app) /\
    ((1 <= currentTheme app <= 3)%Z -> (1 <= currentTheme app' <= 3)%Z) /\
    (currentTheme app' = currentTheme app -> app' = app).
Proof.
  intros W.
  destruct (onHandTrackingUpdate_cases cfg render sorter rnd ist app W)
    as [(Hm & Hne & theme & ps' & _ & _ & W' & E) | (Hc & E)].
  - eexists. split; [exact E|]. cbn [currentTheme particleSystem].
    split; [exact W'|]. split; [reflexivity|]. split; [tauto|].
    split; [intros _; exact Hm|]. intros Heq. congruence.
  - exists app. split; [exact E|]. split; [exact W|].
    split; [|split; [reflexivity|split; [tauto | reflexivity]]].
    intros Hm. destruct Hc as [Hc | Hc]; [tauto | exact Hc].
Qed.

Lemma theme_follows_modes_one_to_three_witness :
  exists app',
    onHandTrackingUpdate smallConfig onePixel coinSorter halves
      {| mode := 4; rightHandPos := sentinel; rightHandAction := "neutral" |}
      (mkApp 1 twoParticles) = Some app' /\
    app' = mkApp 1 twoParticles.
Proof.
  destruct (theme_follows_modes_one_to_three smallConfig onePixel coinSorter halves
              {| mode := 4; rightHandPos := sentinel; rightHandAction := "neutral" |}
              (mkApp 1 twoParticles)) as (app' & E & _ & _ & Hout & _).
  - unfold wellFormed. cbn. repeat split; reflexivity.
  - exists app'. split; [exact E|]. apply Hout. cbn. lia.
Defined.

(** X17. Repeating the hand-tracking callback with the same interaction
    state does nothing: after a first call, a second call (whatever canvas,
    sort and random draws it would meet) returns the application unchanged,
    without regenerating the targets. *)
Theorem repeated_callback_does_nothing cfg render sorter rnd ist app :
  wellFormed cfg (particleSystem app) ->
  exists app',
    onHandTrackingUpdate cfg render sorter rnd ist app = Some app' /\
    forall render2 sorter2 rnd2,
      onHandTrackingUpdate cfg render2 sorter2 rnd2 ist app' = Some app'.
Proof.
  intros W.
  destruct (onHandTrackingUpdate_cases cfg render sorter rnd ist app W)
    as [(Hm & Hne & theme & ps' & _ & _ & W' & E) | (Hc & E)].
  - eexists. split; [exact E|]. intros render2 sorter2 rnd2.
    unfold onHandTrackingUpdate. cbn [currentTheme].
    rewrite Z.eqb_refl. cbn [negb]. rewrite andb_false_r. reflexivity.
  - exists app. split; [exact E|]. intros render2 sorter2 rnd2.
    destruct (onHandTrackingUpdate_cases cfg render2 sorter2 rnd2 ist app W)
      as [(Hm & Hne & _) | (_ & E2)]; [|exact E2].
    destruct Hc as [Hc | Hc]; [tauto | congruence].
Qed.

Lemma repeated_callback_does_nothing_witness :
  exists app',
    onHandTrackingUpdate smallConfig onePixel coinSorter halves
      {| mode := 2; rightHandPos := sentinel; rightHandAction := "neutral" |}
      (mkApp 1 twoParticles) = Some app' /\
    onHandTrackingUpdate smallConfig onePixel coinSorter halves
      {| mode := 2; rightHandPos := sentinel; rightHandAction := "neutral" |}
      app' = Some app'.
Proof.
  destruct (repeated_callback_does_nothing smallConfig onePixel coinSorter halves
              {| mode := 2; rightHandPos := sentinel; rightHandAction := "neutral" |}
              (mkApp 1 twoParticles)) as (app' & E & Hrep).
  - unfold wellFormed. cbn. repeat split; reflexivity.
  - exists app'. split; [exact E | apply Hrep].
Defined.

Lemma update_colors_Forall cfg time theme ist rnd ps :
  wellFormed cfg ps ->
  unitColor (color1 theme) -> unitColor (color2 theme) ->
  exists ps',
    update cfg time theme ist rnd ps = Some ps' /\
    wellFormed cfg ps' /\
    Forall (fun c => 0 <= c <= 1) (colors ps').
Proof.
  intros W H1 H2.
  destruct (update_total cfg time theme ist rnd ps W) as (ps' & E & _ & W' & P).
  exists ps'. split; [exact E|]. split; [exact W'|].
  destruct W' as (_ & _ & _ & _ & W5'). destruct W as (_ & _ & _ & _ & W5).
  apply Forall_lookup. intros m c Hm.
  assert (Hlt : (m < particleCount cfg * 3)%nat).
  { rewrite <- W5'. eapply lookup_lt_Some; eassumption. }
  pose proof (Nat.div_mod_eq m 3) as Hdm.
  pose proof (Nat.mod_upper_bound m 3 ltac:(lia)) as Hmod.
  assert (Hj : (m / 3 < particleCount cfg)%nat) by lia.
  destruct (P (m / 3)%nat Hj) as (p0 & v0 & t0 & _ & _ & _ & _ & _ & _ & Q4).
  destruct Q4 as (Q0 & Q1 & Q2); [lia|].
  destruct (storedColor_unit cfg time theme (rightHandPos ist) p0 H1 H2)
    as (U1 & U2 & U3).
  assert (Hcase : (m = m / 3 * 3 \/ m = m / 3 * 3 + 1 \/ m = m / 3 * 3 + 2)%nat) by lia.
  destruct Hcase as [Hc|[Hc|Hc]]; rewrite Hc in Hm.
  - rewrite Q0 in Hm. injection Hm as <-. exact U1.
  - rewrite Q1 in Hm. injection Hm as <-. exact U2.
  - rewrite Q2 in Hm. injection Hm as <-. exact U3.
Qed.

(** X18. With any theme of the table, one animation step of [App]
    returns, keeps the theme and the shape of the arrays, and leaves every
    value of the colour buffer in [0, 1]: the colours built by
    [createThemes] are in the unit range. *)
Theorem animate_with_table_themes_keeps_colors_in_range cfg time rnd ist app :
  wellFormed cfg (particleSystem app) ->
  (1 <= currentTheme app <= 5)%Z ->
  exists app',
    animate cfg time rnd ist app = Some app' /\
    currentTheme app' = currentTheme app /\
    wellFormed cfg (particleSystem app') /\
    targetPositions (particleSystem app') = targetPositions (particleSystem app) /\
    Forall (fun c => 0 <= c <= 1) (colors (particleSystem app')).
Proof.
  intros W Hk.
  destruct (THEMES_defined _ Hk) as [theme Et].
  destruct (THEMES_unit _ _ Et) as [U1 U2].
  destruct (update_colors_Forall cfg time theme ist rnd (particleSystem app) W U1 U2)
    as (ps' & E & W' & F).
  unfold animate. rewrite Et. cbn [mbind option_bind]. rewrite E.
  eexists. split; [reflexivity|]. cbn [currentTheme particleSystem].
  split; [reflexivity|]. split; [exact W'|]. split; [|exact F].
  eapply update_targets. eassumption.
Qed.

Lemma animate_with_table_themes_keeps_colors_in_range_witness :
  exists app',
    animate smallConfig 0 halves (handAtOrigin "open") (mkApp 3 twoParticles)
      = Some app' /\
    Forall (fun c => 0 <= c <= 1) (colors (particleSystem app')).
Proof.
  destruct (animate_with_table_themes_keeps_colors_in_range smallConfig 0 halves
              (handAtOrigin "open") (mkApp 3 twoParticles)) as (app' & E & _ & _ & _ & F).
  - unfold wellFormed. cbn. repeat split; reflexivity.
  - cbn. lia.
  - exists app'. split; [exact E | exact F].
Defined.

(** ** Bounded histories *)

(** Appending to the last [max] items of a history and dropping the first
    item when there are more than [max] gives the last [max] items of the
    longer history. *)
Lemma push_shift_window {A : Type} (max : nat) (all : list A) (a : A) :
  let l' := (drop (length all - max) all ++ [a])%list in
  (if (max <? length l')%nat then tail l' else l')
  = drop (length (all ++ [a])%list - max) (all ++ [a])%list.
Proof.
  cbn zeta. rewrite !length_app, length_drop. cbn [length].
  destruct (Nat.lt_ge_cases (length all) max) as [Hlt | Hge].
  - replace (length all - max)%nat with 0%nat by lia.
    replace (length all + 1 - max)%nat with 0%nat by lia.
    cbn [drop]. replace (max <? length all - 0 + 1)%nat with false
      by (symmetry; apply Nat.ltb_ge; lia).
    reflexivity.
  - replace (max <? length all - (length all - max) + 1)%nat with true
      by (symmetry; apply Nat.ltb_lt; lia).
    replace (length all + 1 - max)%nat with (S (length all - max)) by lia.
    destruct (Nat.eq_dec max 0%nat) as [-> | Hpos].
    + rewrite Nat.sub_0_r. rewrite (drop_ge all) by lia.
      rewrite drop_ge by (rewrite length_app; cbn; lia). reflexivity.
    + rewrite (drop_app_le all [a] (S (length all - max))) by lia.
      replace (S (length all - max)) with (length all - max + 1)%nat by lia.
      rewrite <- drop_drop.
      assert (Hne : (0 < length (drop (length all - max) all))%nat)
        by (rewrite length_drop; lia).
      destruct (drop (length all - max) all) as [|b rest]; [cbn in Hne; lia|].
      reflexivity.
Qed.


Lemma logAll_window (entries : list ErrorHandler.Entry) :
  forall (pre : list ErrorHandler.Entry) (h : ErrorHandler.t),
    ErrorHandler.maxErrors h = 50%nat ->
    ErrorHandler.errors h
      = drop (length pre - 50) (map ErrorHandler.infoOf pre) ->
    let h' := ErrorHandler.logAll entries h in
    ErrorHandler.maxErrors h' = 50%nat /\
    ErrorHandler.errors h'
      = drop (length (pre ++ entries)%list - 50)
             (map ErrorHandler.infoOf (pre ++ entries)%list).
Proof.
  induction entries as [|[[now error] context] rest IH]; intros pre h Hmax Herr; cbn zeta.
  - cbn [ErrorHandler.logAll]. rewrite app_nil_r. split; assumption.
  - cbn [ErrorHandler.logAll].
    specialize (IH (pre ++ [(now, error, context)])%list
                  (snd (ErrorHandler.log now error context h))).
    rewrite <- app_assoc in IH. cbn [app] in IH.
    apply IH.
    + exact Hmax.
    + unfold ErrorHandler.log. cbn [snd ErrorHandler.errors ErrorHandler.maxErrors].
      rewrite Hmax, Herr.
      pose proof (push_shift_window 50 (map ErrorHandler.infoOf pre)
                    (ErrorHandler.infoOf (now, error, context))) as Hw.
      cbn zeta in Hw. rewrite length_map in Hw.
      cbn [ErrorHandler.infoOf] in Hw. rewrite Hw.
      rewrite map_app, !length_app, length_map. reflexivity.
Qed.

(** X19. The error log is a window on the last 50 errors: after any
    sequence of calls of [log] on a new handler, [getErrors] returns the
    records of the last 50 calls (all of them when there were fewer), in
    the order of the calls.  The record returned by a call is the last
    element of the log after it, and a log emptied by [clearErrors] fills
    again in the same way. *)
Theorem error_log_is_a_window_of_fifty (entries more : list ErrorHandler.Entry) :
  let h := ErrorHandler.logAll entries ErrorHandler.create in
  ErrorHandler.getErrors h
    = drop (length entries - 50) (map ErrorHandler.infoOf entries) /\
  (length (ErrorHandler.getErrors h) <= 50)%nat /\
  (forall now error context,
     let out := ErrorHandler.log now error context h in
     fst out = ErrorHandler.infoOf (now, error, context) /\
     last (ErrorHandler.getErrors (snd out)) = Some (fst out)) /\
  ErrorHandler.getErrors (ErrorHandler.clearErrors h) = [] /\
  ErrorHandler.getErrors (ErrorHandler.logAll more (ErrorHandler.clearErrors h))
    = drop (length more - 50) (map ErrorHandler.infoOf more).
Proof.
  cbn zeta.
  destruct (logAll_window entries [] ErrorHandler.create) as [Hmax Herr];
    try reflexivity.
  cbn [app] in Herr. unfold ErrorHandler.getErrors.
  split; [exact Herr|]. split.
  { rewrite Herr, length_drop, length_map. lia. }
  split.
  { intros now error context. cbn zeta. split; [reflexivity|].
    pose proof (logAll_window [(now, error, context)] entries
                  (ErrorHandler.logAll entries ErrorHandler.create) Hmax Herr) as [_ H1].
    cbn [ErrorHandler.logAll] in H1. rewrite H1.
    rewrite map_app, length_app. cbn [length map].
    rewrite drop_app_le by (rewrite length_map; lia).
    apply last_snoc. }
  split; [reflexivity|].
  destruct (logAll_window more []
              (ErrorHandler.clearErrors (ErrorHandler.logAll entries ErrorHandler.create)))
    as [_ H2]; [exact Hmax | reflexivity |].
  exact H2.
Qed.

(** ** The frame-time history *)








(** ** The animation loop *)

Lemma cancel_single id : AppLoop.cancel id [id] = [].
Proof. unfold AppLoop.cancel. cbn. now rewrite Nat.eqb_refl. Qed.

Lemma step_keeps_loopInvariant a e :
  loopInvariant a -> loopInvariant (AppLoop.step a e).
Proof.
  destruct a as [running fid pend next fr]. unfold loopInvariant.
  cbn [AppLoop.isRunning AppLoop.animationFrameId AppLoop.pending AppLoop.nextId].
  intros [Hn H].
  assert (Hp : pend = if running then match fid with Some id => [id] | None => [] end else []).
  { destruct running, fid; try tauto; now destruct H. }
  assert (Hid : forall id, fid = Some id -> (1 <= id < next)%nat).
  { intros id ->. destruct running; now destruct H. }
  assert (Hrun : running = true -> fid <> None).
  { intros -> ->. exact H. }
  clear H. subst pend.
  destruct e as [| | id]; cbn [AppLoop.step].
  - unfold AppLoop.start, AppLoop.animate.
    cbn [AppLoop.isRunning AppLoop.animationFrameId AppLoop.pending AppLoop.nextId negb].
    destruct running.
    + cbn [AppLoop.isRunning AppLoop.animationFrameId AppLoop.pending AppLoop.nextId].
      split; [exact Hn|]. destruct fid as [id0|]; [|now destruct Hrun].
      split; [reflexivity | now apply Hid].
    + cbn [AppLoop.isRunning AppLoop.animationFrameId AppLoop.pending AppLoop.nextId app].
      split; [lia|]. split; [reflexivity | lia].
  - unfold AppLoop.stop.
    cbn [AppLoop.isRunning AppLoop.animationFrameId AppLoop.pending AppLoop.nextId].
    split; [exact Hn|].
    destruct fid as [id0|].
    + specialize (Hid id0 eq_refl).
      replace (id0 =? 0)%nat with false by (symmetry; apply Nat.eqb_neq; lia).
      destruct running.
      * rewrite cancel_single. split; [reflexivity | exact Hid].
      * split; [reflexivity | exact Hid].
    + destruct running; [now destruct Hrun | reflexivity].
  - unfold AppLoop.fire.
    cbn [AppLoop.isRunning AppLoop.animationFrameId AppLoop.pending AppLoop.nextId].
    destruct running.
    + destruct fid as [id0|]; [|now destruct Hrun].
      specialize (Hid id0 eq_refl).
      cbn [existsb]. rewrite orb_false_r.
      destruct (id =? id0)%nat eqn:E.
      * apply Nat.eqb_eq in E. subst id0. rewrite cancel_single.
        unfold AppLoop.animate.
        cbn [AppLoop.isRunning AppLoop.animationFrameId AppLoop.pending AppLoop.nextId negb app].
        split; [lia|]. split; [reflexivity | lia].
      * cbn [AppLoop.isRunning AppLoop.animationFrameId AppLoop.pending AppLoop.nextId].
        split; [exact Hn|]. split; [reflexivity | exact Hid].
    + cbn [existsb AppLoop.isRunning AppLoop.animationFrameId AppLoop.pending AppLoop.nextId].
      split; [exact Hn|]. destruct fid as [id0|]; [|reflexivity].
      split; [reflexivity | now apply Hid].
Qed.

Lemma run_loopInvariant events : loopInvariant (AppLoop.run events).
Proof.
  unfold AppLoop.run.
  assert (G : forall a, loopInvariant a -> loopInvariant (fold_left AppLoop.step events a)).
  { induction events as [|e rest IH]; intros a Ha; [exact Ha|].
    cbn [fold_left]. apply IH. now apply step_keeps_loopInvariant. }
  apply G. unfold loopInvariant. cbn. split; [lia | reflexivity].
Qed.

(** X21. Whatever sequence of [start], [stop] and animation-frame firings
    the application goes through, at most one animation frame is pending:
    exactly one, the last one requested, while the loop runs, and none
    while it is stopped.  Hence a second [start] never doubles the loop,
    and after [stop] neither a firing nor [animate] runs another frame
    until the next [start]. *)
Theorem animation_loop_has_one_pending_frame (events : list AppLoop.Event) :
  let a := AppLoop.run events in
  (length (AppLoop.pending a) <= 1)%nat /\
  (AppLoop.isRunning a = true ->
     exists id, AppLoop.pending a = [id] /\ AppLoop.animationFrameId a = Some id /\
                AppLoop.start a = a) /\
  (AppLoop.isRunning a = false ->
     AppLoop.pending a = [] /\
     AppLoop.animate a = a /\
     forall id, AppLoop.fire id a = a).
Proof.
  cbn zeta. pose proof (run_loopInvariant events) as [Hn H].
  destruct (AppLoop.run events) as [running fid pend next fr].
  cbn [AppLoop.isRunning AppLoop.animationFrameId AppLoop.pending AppLoop.nextId] in *.
  destruct running.
  - destruct fid as [id0|]; [|destruct H]. destruct H as [-> Hid].
    split; [cbn; lia|]. split; [|discriminate].
    intros _. exists id0. repeat split; reflexivity.
  - assert (Hp : pend = []) by (destruct fid; [destruct H as [-> _] | rewrite H]; reflexivity).
    subst pend. split; [cbn; lia|]. split; [discriminate|].
    intros _. repeat split; reflexivity.
Qed.
